(** * Exercise Repetition Counter (ERC_Code.py): a shallow embedding

    The program is a CircuitPython control loop: it polls an ultrasonic
    distance sensor and a potentiometer, multiplexes a four-digit
    seven-segment display, edge-detects a reset button and drives a buzzer.

    Python values are modelled as follows.
    - [int] is [Z] (unbounded); [//] and [%] with a positive divisor are
      [Z.div] and [Z.modulo] (both floor).
    - [float] is the kernel's binary64 [float] (IEEE 754, round to nearest
      even), which is the arithmetic CPython uses; decimal literals are read
      to the nearest binary64 value in both.
    - an exception is a value of [exn]; code that can raise returns [res].
    - the hardware reads of one loop iteration ([time.monotonic()],
      [reset_pin.value], [sonar.distance], [potentiometer.value]) are the
      fields of a [readings] record; the module-level globals are the fields
      of [state]; [print] appends a [line] to the [console] field. *)

From Stdlib Require Import ZArith List Bool Lia.
From Stdlib Require Import Floats.
Import ListNotations.

Set Warnings "-inexact-float".
Open Scope Z_scope.

(** ** Python values and exceptions *)

Inductive exn : Type :=
| RuntimeError
| ValueError
| OverflowError
| IndexError
| KeyError.

Inductive res (A : Type) : Type :=
| Ok (a : A)
| Raise (e : exn).

Arguments Ok {A} a.
Arguments Raise {A} e.

Definition bind {A B : Type} (m : res A) (k : A -> res B) : res B :=
  match m with
  | Ok a => k a
  | Raise e => Raise e
  end.

Notation "x <- m ;; k" := (bind m (fun x => k))
  (at level 61, m at next level, right associativity).

(** A Python number: the two-field packer is called with a float threshold
    by the loop and is specified on integers. *)
Inductive pynum : Type :=
| PyInt (z : Z)
| PyFloat (f : float).

(** [float(z)] for an [int] whose magnitude is below 2^63 (exact below 2^53;
    every integer the program converts is a 16-bit reading or 65535). *)
Definition float_of_int (z : Z) : float :=
  match z with
  | Z0 => PrimFloat.zero
  | Zpos _ => PrimFloat.of_uint63 (Uint63.of_Z z)
  | Zneg p => PrimFloat.opp (PrimFloat.of_uint63 (Uint63.of_Z (Zpos p)))
  end.

(** [a / b] on two [int]s: the exact quotient rounded once, which for
    operands below 2^53 is the quotient of their float images. *)
Definition int_truediv (a b : Z) : float :=
  (float_of_int a / float_of_int b)%float.

(** Truncation toward zero of a finite float, read off its mantissa and
    exponent: the value is [(-1)^s * m * 2^e]. *)
Definition trunc_finite (s : bool) (m : positive) (e : Z) : Z :=
  let a := match e with
           | Zneg k => Z.shiftr (Zpos m) (Zpos k)
           | _ => Z.shiftl (Zpos m) e
           end in
  if s then - a else a.

(** [int(x)]: the identity on an [int]; on a [float] truncation toward zero,
    [ValueError] on NaN and [OverflowError] on an infinity. *)
Definition py_int (x : pynum) : res Z :=
  match x with
  | PyInt z => Ok z
  | PyFloat f =>
      match Prim2SF f with
      | S754_zero _ => Ok 0
      | S754_finite s m e => Ok (trunc_finite s m e)
      | S754_infinity _ => Raise OverflowError
      | S754_nan => Raise ValueError
      end
  end.

(** [l[i]]: a negative index counts from the end, an index outside
    [-len, len) raises [IndexError]. *)
Definition py_index {A : Type} (l : list A) (i : Z) : res A :=
  let n := Z.of_nat (length l) in
  let j := if i <? 0 then i + n else i in
  if (j <? 0) || (n <=? j) then Raise IndexError
  else match nth_error l (Z.to_nat j) with
       | Some a => Ok a
       | None => Raise IndexError
       end.

(** [l[i] = v] for an index in range (same index rule as [py_index]). *)
Fixpoint set_nth {A : Type} (n : nat) (v : A) (l : list A) : list A :=
  match l, n with
  | [], _ => []
  | _ :: t, O => v :: t
  | a :: t, S k => a :: set_nth k v t
  end.

Definition py_setitem {A : Type} (l : list A) (i : Z) (v : A) : res (list A) :=
  let n := Z.of_nat (length l) in
  let j := if i <? 0 then i + n else i in
  if (j <? 0) || (n <=? j) then Raise IndexError
  else Ok (set_nth (Z.to_nat j) v l).

(** ** Constants of the program *)

Definition BLANK : Z := -1.
Definition pot_tolerance : Z := 1000.
Definition beep_duration : float := 0.3%float.
Definition DISPLAY_INTERVAL : float := 0.002%float.
Definition SENSOR_INTERVAL : float := 0.1%float.
Definition POT_MAX : Z := 65535.

(** Segment patterns of a common-anode display, segments a to g:
    [false] is 0 (on), [true] is 1 (off). A missing key raises [KeyError]. *)
Definition digit_patterns (d : Z) : res (list bool) :=
  match d with
  | 0 => Ok [false; false; false; false; false; false; true]
  | 1 => Ok [true; false; false; true; true; true; true]
  | 2 => Ok [false; false; true; false; false; true; false]
  | 3 => Ok [false; false; false; false; true; true; false]
  | 4 => Ok [true; false; false; true; true; false; false]
  | 5 => Ok [false; true; false; false; true; false; false]
  | 6 => Ok [false; true; false; false; false; false; false]
  | 7 => Ok [false; false; false; true; true; true; true]
  | 8 => Ok [false; false; false; false; false; false; false]
  | 9 => Ok [false; false; false; false; true; false; false]
  | _ => Raise KeyError
  end.

(** ** Pure functions *)

(** [update_display_digits(val)], lines 93-108. *)
Definition update_display_digits (val : Z) : list Z :=
  let val := val mod 10000 in
  let t := val / 1000 in
  let h := (val mod 1000) / 100 in
  let te := (val mod 100) / 10 in
  let o := val mod 10 in
  if val <? 10 then [BLANK; BLANK; BLANK; o]
  else if val <? 100 then [BLANK; BLANK; te; o]
  else if val <? 1000 then [BLANK; h; te; o]
  else [t; h; te; o].

(** Line 133 of [get_pot_value]: the linear interpolation, in centimetres. *)
Definition threshold_cm_of_raw (raw : Z) : float :=
  (5.0 + int_truediv raw 65535 * (92.0 - 5.0))%float.

(** [get_pot_value()], lines 131-135, on the reading [raw] of the
    potentiometer: the raw value and the threshold in (coarse) inches. *)
Definition get_pot_value (raw : Z) : Z * float :=
  let threshold_cm := threshold_cm_of_raw raw in
  let threshold_in := (threshold_cm / 2.5)%float in
  (raw, threshold_in).

(** Lines 143-151 of [combine_threshold_and_counter], after the two [int]
    conversions. *)
Definition pack_digits (t c : Z) : list Z :=
  let t := Z.max 0 (Z.min t 99) in
  let c := Z.max 0 (Z.min c 99) in
  let t_tens := t / 10 in
  let t_ones := t mod 10 in
  let c_tens := c / 10 in
  let c_ones := c mod 10 in
  [t_tens; t_ones; c_tens; c_ones].

(** [combine_threshold_and_counter(threshold, counter)], lines 138-151. *)
Definition combine_threshold_and_counter (threshold counter : pynum)
  : res (list Z) :=
  t <- py_int threshold ;;
  c <- py_int counter ;;
  Ok (pack_digits t c).

(** ** The state of the program and the reads of one iteration *)

(** A line printed on the serial console. *)
Inductive line : Type :=
| StartingCounter
| CounterReset
| ThresholdLine (threshold : float)
| RepDetected (n : Z).

(** The module-level globals that the loop reads before it writes them.
    ([raw], [threshold] and [distance] are always assigned before use and
    [ready_for_next] is never read, so they are local to a step here.) *)
Record state : Type := mkState {
  last_reset_state : bool; (* previous sample of the reset pin (line 32) *)
  last_pot_value : Z; (* last raw reading that was reported (line 36) *)
  object_inside : bool; (* detection state, true is Inside (line 40) *)
  buzzer_frequency : Z; (* buzzer.frequency *)
  buzzer_duty_cycle : Z; (* buzzer.duty_cycle *)
  digits : list bool; (* d.value of the four digit-select pins *)
  segments : list bool; (* s.value of the seven segment pins *)
  counter : Z; (* the repetition count (line 74) *)
  display_digits : list Z; (* the four digits shown (line 75) *)
  current_digit : Z; (* position multiplexed next (line 76) *)
  beep_active : bool; (* line 77 *)
  beep_start_time : float; (* line 78 *)
  last_display_time : float; (* line 82 *)
  last_sensor_time : float; (* line 86 *)
  console : list line (* the lines printed so far, newest first *)
}.

(** Assignment to one global. *)
Definition set_last_reset_state (v : bool) (st : state) : state :=
  mkState v (last_pot_value st) (object_inside st) (buzzer_frequency st)
    (buzzer_duty_cycle st) (digits st) (segments st) (counter st)
    (display_digits st) (current_digit st) (beep_active st)
    (beep_start_time st) (last_display_time st) (last_sensor_time st)
    (console st).

Definition set_last_pot_value (v : Z) (st : state) : state :=
  mkState (last_reset_state st) v (object_inside st) (buzzer_frequency st)
    (buzzer_duty_cycle st) (digits st) (segments st) (counter st)
    (display_digits st) (current_digit st) (beep_active st)
    (beep_start_time st) (last_display_time st) (last_sensor_time st)
    (console st).

Definition set_object_inside (v : bool) (st : state) : state :=
  mkState (last_reset_state st) (last_pot_value st) v (buzzer_frequency
    st) (buzzer_duty_cycle st) (digits st) (segments st) (counter st)
    (display_digits st) (current_digit st) (beep_active st)
    (beep_start_time st) (last_display_time st) (last_sensor_time st)
    (console st).

Definition set_buzzer_frequency (v : Z) (st : state) : state :=
  mkState (last_reset_state st) (last_pot_value st) (object_inside st) v
    (buzzer_duty_cycle st) (digits st) (segments st) (counter st)
    (display_digits st) (current_digit st) (beep_active st)
    (beep_start_time st) (last_display_time st) (last_sensor_time st)
    (console st).

Definition set_buzzer_duty_cycle (v : Z) (st : state) : state :=
  mkState (last_reset_state st) (last_pot_value st) (object_inside st)
    (buzzer_frequency st) v (digits st) (segments st) (counter st)
    (display_digits st) (current_digit st) (beep_active st)
    (beep_start_time st) (last_display_time st) (last_sensor_time st)
    (console st).

Definition set_digits (v : list bool) (st : state) : state :=
  mkState (last_reset_state st) (last_pot_value st) (object_inside st)
    (buzzer_frequency st) (buzzer_duty_cycle st) v (segments st) (counter
    st) (display_digits st) (current_digit st) (beep_active st)
    (beep_start_time st) (last_display_time st) (last_sensor_time st)
    (console st).

Definition set_segments (v : list bool) (st : state) : state :=
  mkState (last_reset_state st) (last_pot_value st) (object_inside st)
    (buzzer_frequency st) (buzzer_duty_cycle st) (digits st) v (counter
    st) (display_digits st) (current_digit st) (beep_active st)
    (beep_start_time st) (last_display_time st) (last_sensor_time st)
    (console st).

Definition set_counter (v : Z) (st : state) : state :=
  mkState (last_reset_state st) (last_pot_value st) (object_inside st)
    (buzzer_frequency st) (buzzer_duty_cycle st) (digits st) (segments st)
    v (display_digits st) (current_digit st) (beep_active st)
    (beep_start_time st) (last_display_time st) (last_sensor_time st)
    (console st).

Definition set_display_digits (v : list Z) (st : state) : state :=
  mkState (last_reset_state st) (last_pot_value st) (object_inside st)
    (buzzer_frequency st) (buzzer_duty_cycle st) (digits st) (segments st)
    (counter st) v (current_digit st) (beep_active st) (beep_start_time
    st) (last_display_time st) (last_sensor_time st) (console st).

Definition set_current_digit (v : Z) (st : state) : state :=
  mkState (last_reset_state st) (last_pot_value st) (object_inside st)
    (buzzer_frequency st) (buzzer_duty_cycle st) (digits st) (segments st)
    (counter st) (display_digits st) v (beep_active st) (beep_start_time
    st) (last_display_time st) (last_sensor_time st) (console st).

Definition set_beep_active (v : bool) (st : state) : state :=
  mkState (last_reset_state st) (last_pot_value st) (object_inside st)
    (buzzer_frequency st) (buzzer_duty_cycle st) (digits st) (segments st)
    (counter st) (display_digits st) (current_digit st) v (beep_start_time
    st) (last_display_time st) (last_sensor_time st) (console st).

Definition set_beep_start_time (v : float) (st : state) : state :=
  mkState (last_reset_state st) (last_pot_value st) (object_inside st)
    (buzzer_frequency st) (buzzer_duty_cycle st) (digits st) (segments st)
    (counter st) (display_digits st) (current_digit st) (beep_active st) v
    (last_display_time st) (last_sensor_time st) (console st).

Definition set_last_display_time (v : float) (st : state) : state :=
  mkState (last_reset_state st) (last_pot_value st) (object_inside st)
    (buzzer_frequency st) (buzzer_duty_cycle st) (digits st) (segments st)
    (counter st) (display_digits st) (current_digit st) (beep_active st)
    (beep_start_time st) v (last_sensor_time st) (console st).

Definition set_last_sensor_time (v : float) (st : state) : state :=
  mkState (last_reset_state st) (last_pot_value st) (object_inside st)
    (buzzer_frequency st) (buzzer_duty_cycle st) (digits st) (segments st)
    (counter st) (display_digits st) (current_digit st) (beep_active st)
    (beep_start_time st) (last_display_time st) v (console st).

(** [print(l)]. *)
Definition print (l : line) (st : state) : state :=
  mkState (last_reset_state st) (last_pot_value st) (object_inside st)
    (buzzer_frequency st) (buzzer_duty_cycle st) (digits st) (segments st)
    (counter st) (display_digits st) (current_digit st) (beep_active st)
    (beep_start_time st) (last_display_time st) (last_sensor_time st) (l
    :: console st).

(** What one loop iteration reads from the hardware. *)
Record readings : Type := mkReadings {
  now : float; (* time.monotonic() at line 168 *)
  beep_clock : float; (* time.monotonic() at line 171 *)
  reset_pin_value : bool; (* reset_pin.value: false is pressed *)
  sonar_distance : option float; (* sonar.distance; None: RuntimeError *)
  potentiometer_value : Z; (* potentiometer.value, 0 to 65535 *)
  start_clock : float (* time.monotonic() at line 158 *)
}.

(** ** The operations of the loop *)

(** [start_beep(frequency)], lines 154-159; [clock] is what
    [time.monotonic()] returns at line 158. *)
Definition start_beep (frequency : Z) (clock : float) (st : state) : state :=
  let st := set_buzzer_frequency frequency st in
  let st := set_buzzer_duty_cycle 32768 st in
  let st := set_beep_start_time clock st in
  set_beep_active true st.

(** [for i in range(7): segments[i].value = pattern[i]], lines 124-125. *)
Fixpoint drive_segments (range : list Z) (pattern segs : list bool)
  : res (list bool) :=
  match range with
  | [] => Ok segs
  | i :: rest =>
      v <- py_index pattern i ;;
      segs <- py_setitem segs i v ;;
      drive_segments rest pattern segs
  end.

(** [refresh_display()], lines 111-128. *)
Definition refresh_display (st : state) : res state :=
  let st := set_digits (map (fun _ => false) (digits st)) st in
  let st := set_segments (map (fun _ => true) (segments st)) st in
  val <- py_index (display_digits st) (current_digit st) ;;
  st <- (if negb (val =? -1) then
           pattern <- digit_patterns val ;;
           segs <- drive_segments [0; 1; 2; 3; 4; 5; 6] pattern (segments st) ;;
           let st := set_segments segs st in
           ds <- py_setitem (digits st) (current_digit st) true ;;
           Ok (set_digits ds st)
         else Ok st) ;;
  Ok (set_current_digit ((current_digit st + 1) mod 4) st).

(** The beep time-out, lines 170-173. *)
Definition beep_update (r : readings) (st : state) : state :=
  if beep_active st then
    if (beep_duration <=? beep_clock r - beep_start_time st)%float then
      set_beep_active false (set_buzzer_duty_cycle 0 st)
    else st
  else st.

(** The display refresh, lines 176-178. *)
Definition display_update (r : readings) (st : state) : res state :=
  if (DISPLAY_INTERVAL <=? now r - last_display_time st)%float then
    st <- refresh_display st ;;
    Ok (set_last_display_time (now r) st)
  else Ok st.

(** The reset button, lines 181-185. *)
Definition reset_button (r : readings) (st : state) : state :=
  let reset_state := reset_pin_value r in
  let st :=
    if negb reset_state && last_reset_state st then
      print CounterReset (set_counter 0 st)
    else st in
  set_last_reset_state reset_state st.

(** [sonar.distance]: a measurement, or [RuntimeError] on a lost echo. *)
Definition sonar_read (r : readings) : res float :=
  match sonar_distance r with
  | Some d => Ok d
  | None => Raise RuntimeError
  end.

(** The body of the [try], lines 190-210. *)
Definition sensor_try (r : readings) (st : state) : res state :=
  distance <- sonar_read r ;;
  let (raw, threshold) := get_pot_value (potentiometer_value r) in
  let st :=
    if pot_tolerance <? Z.abs (raw - last_pot_value st) then
      set_last_pot_value raw (print (ThresholdLine threshold) st)
    else st in
  let threshold_cm := (threshold * 2.54)%float in
  let detected := (distance <=? threshold_cm)%float in
  let st :=
    if detected && negb (object_inside st) then
      let st := set_counter (counter st + 1) st in
      let st := print (RepDetected (counter st)) st in
      let st := start_beep 4000 (start_clock r) st in
      set_object_inside true st
    else if negb detected && object_inside st then
      set_object_inside false st
    else st in
  packed <- combine_threshold_and_counter (PyFloat threshold)
              (PyInt (counter st)) ;;
  Ok (set_display_digits packed st).

(** [try: ... except RuntimeError: pass], lines 189-213. The only statement
    of the body that raises [RuntimeError] is its first one, before any
    assignment, so the handler continues from the state at entry; any other
    exception leaves the loop. *)
Definition sensor_guarded (r : readings) (st : state) : res state :=
  match sensor_try r st with
  | Raise RuntimeError => Ok st
  | other => other
  end.

(** One sensor tick, lines 189-215: the guarded body, then
    [last_sensor_time = now]. *)
Definition sensor_tick (r : readings) (st : state) : res state :=
  st <- sensor_guarded r st ;;
  Ok (set_last_sensor_time (now r) st).

(** The sensor read as the loop schedules it, lines 188-215. *)
Definition sensor_poll (r : readings) (st : state) : res state :=
  if (SENSOR_INTERVAL <=? now r - last_sensor_time st)%float then
    sensor_tick r st
  else Ok st.

(** One iteration of [while True], lines 168-215. *)
Definition loop_iteration (r : readings) (st : state) : res state :=
  let st := beep_update r st in
  st <- display_update r st ;;
  let st := reset_button r st in
  sensor_poll r st.

(** Successive iterations, one [readings] each. *)
Fixpoint run (rs : list readings) (st : state) : res state :=
  match rs with
  | [] => Ok st
  | r :: rest => st <- loop_iteration r st ;; run rest st
  end.

(** Successive sensor ticks. *)
Fixpoint run_ticks (rs : list readings) (st : state) : res state :=
  match rs with
  | [] => Ok st
  | r :: rest => st <- sensor_tick r st ;; run_ticks rest st
  end.

(** The globals as lines 22-88 leave them. *)
Definition boot_state : state :=
  {| last_reset_state := true;
     last_pot_value := -1;
     object_inside := false;
     buzzer_frequency := 440;
     buzzer_duty_cycle := 0;
     digits := [false; false; false; false];
     segments := [true; true; true; true; true; true; true];
     counter := 0;
     display_digits := [0; 0; 0; 0];
     current_digit := 0;
     beep_active := false;
     beep_start_time := 0%float;
     last_display_time := 0%float;
     last_sensor_time := 0%float;
     console := [] |}.

(** The state on entry to the loop, lines 163-165, for the first reading
    [raw] of the potentiometer. *)
Definition initial_state (raw : Z) : res state :=
  let (_, threshold) := get_pot_value raw in
  packed <- combine_threshold_and_counter (PyFloat threshold)
              (PyInt (counter boot_state)) ;;
  Ok (print StartingCounter (set_display_digits packed boot_state)).

(** ** Vocabulary of the specification *)

(** [clamp lo hi x]: values below [lo] floor to [lo], above [hi] ceiling
    to [hi]. *)
Definition clamp (lo hi x : Z) : Z :=
  if x <? lo then lo else if hi <? x then hi else x.

(** A display entry is a decimal digit. *)
Definition is_digit (d : Z) : Prop := 0 <= d <= 9.

(** The value a display entry contributes: a blank reads as zero. *)
Definition digit_value (d : Z) : Z := if d =? BLANK then 0 else d.

(** The displayed entries read as a decimal number, most significant
    entry first. *)
Definition decode (ds : list Z) : Z :=
  fold_left (fun acc d => 10 * acc + digit_value d) ds 0.

(** The decimal digit of [m] at place [10^k]. *)
Definition decimal_digit (m : Z) (k : Z) : Z := (m / 10 ^ k) mod 10.

(** The raw reading is a 16-bit value. *)
Definition raw_in_range (raw : Z) : Prop := 0 <= raw <= POT_MAX.

(** The comparison of line 198 for a measured [distance] and the reading
    [raw]: the threshold in inches is converted back with 2.54. *)
Definition detected_at (raw : Z) (distance : float) : bool :=
  (distance <=? snd (get_pot_value raw) * 2.54)%float.

(** The outcome of the comparison on a tick; a failed measurement detects
    nothing. *)
Definition detected (r : readings) : bool :=
  match sonar_distance r with
  | Some d => detected_at (potentiometer_value r) d
  | None => false
  end.

(** A successful sensor tick: the measurement returned a distance and the
    potentiometer a 16-bit value. *)
Definition successful (r : readings) : Prop :=
  sonar_distance r <> None /\ raw_in_range (potentiometer_value r).

(** Number of Outside-to-Inside transitions along a sequence of detection
    states that starts after the state [inside]. *)
Fixpoint entries (inside : bool) (trace : list bool) : Z :=
  match trace with
  | [] => 0
  | b :: rest => (if b && negb inside then 1 else 0) + entries b rest
  end.

(** The detection state after each tick of a sequence of sensor ticks
    (the sequence stops at a tick that raises). *)
Fixpoint inside_trace (rs : list readings) (st : state) : list bool :=
  match rs with
  | [] => []
  | r :: rest =>
      match sensor_tick r st with
      | Ok st' => object_inside st' :: inside_trace rest st'
      | Raise _ => []
      end
  end.

(** [k] repetitions of a pattern of comparison outcomes. *)
Fixpoint cycles (k : nat) (pattern : list bool) : list bool :=
  match k with
  | O => []
  | S n => pattern ++ cycles n pattern
  end.

(** How many times a line was printed. *)
Definition is_reset_line (l : line) : bool :=
  match l with CounterReset => true | _ => false end.

Definition is_rep_line (l : line) : bool :=
  match l with RepDetected _ => true | _ => false end.

Definition resets_fired (st : state) : Z :=
  Z.of_nat (length (filter is_reset_line (console st))).

Definition reps_announced (st : state) : Z :=
  Z.of_nat (length (filter is_rep_line (console st))).

(** The shape the loop keeps: four digit-select pins, seven segment pins,
    four display entries that are digits or blank, a position below four. *)
Definition wf_state (st : state) : Prop :=
  length (digits st) = 4%nat /\
  length (segments st) = 7%nat /\
  length (display_digits st) = 4%nat /\
  Forall (fun d => d = BLANK \/ is_digit d) (display_digits st) /\
  0 <= current_digit st < 4.

(** The readings of an iteration are those of the hardware. *)
Definition valid (r : readings) : Prop :=
  raw_in_range (potentiometer_value r).

(** The iteration dispatches the sensor read and the measurement
    succeeds. *)
Definition ticked (r : readings) (st : state) : bool :=
  (SENSOR_INTERVAL <=? now r - last_sensor_time st)%float &&
  match sonar_distance r with Some _ => true | None => false end.

(** The reset input reads pressed (the pin is pulled up: low is pressed). *)
Definition pressed (r : readings) : Prop := reset_pin_value r = false.

(** The press edge: the previous sample reads not pressed and the current
    one pressed. *)
Definition press_edge (r : readings) (st : state) : bool :=
  negb (reset_pin_value r) && last_reset_state st.

(** [st'] differs from [st] at most in the pins, the multiplexer position,
    the beep and the display timer. *)
Definition untouched (st st' : state) : Prop :=
  counter st' = counter st /\
  object_inside st' = object_inside st /\
  display_digits st' = display_digits st /\
  last_reset_state st' = last_reset_state st /\
  last_sensor_time st' = last_sensor_time st /\
  last_pot_value st' = last_pot_value st /\
  console st' = console st.

(** A run of iterations none of which performs a successful sensor
    tick. *)
Fixpoint quiet_run (rs : list readings) (st : state) : Prop :=
  match rs with
  | [] => True
  | r :: rest =>
      ticked r st = false /\
      match loop_iteration r st with
      | Ok st' => quiet_run rest st'
      | Raise _ => True
      end
  end.

(** [p] on [n] consecutive integers from [z] on. *)
Fixpoint all_from (n : nat) (z : Z) (p : Z -> bool) : bool :=
  match n with
  | O => true
  | S k => p z && all_from k (z + 1) p
  end.

(** What is checked of the threshold at one raw reading: it is between 2.0
    and 36.8 and truncates to an integer between 2 and 36. *)
Definition threshold_check (raw : Z) : bool :=
  let threshold := snd (get_pot_value raw) in
  (2.0 <=? threshold)%float && (threshold <=? 36.8)%float &&
  match py_int (PyFloat threshold) with
  | Ok t => (2 <=? t) && (t <=? 36)
  | Raise _ => false
  end.

(** ** Concrete inputs used below *)

(** The reads of an iteration at time [t] (all clocks read [t]). *)
Definition at_time (t : float) (pin : bool) (distance : option float)
  (raw : Z) : readings :=
  {| now := t; beep_clock := t; reset_pin_value := pin;
     sonar_distance := distance; potentiometer_value := raw;
     start_clock := t |}.

(** A tick at time 1.0 on which the echo is lost. *)
Definition lost_echo : readings := at_time 1.0%float true None 30000.

(** The state on entry to the loop when the potentiometer reads 30000
    (a threshold of 17 inches). *)
Definition entry_state : state :=
  print StartingCounter (set_display_digits [1; 7; 0; 0] boot_state).

(** Seven repetitions counted and shown. *)
Definition seven_shown : state :=
  set_last_sensor_time 9.0%float
    (set_display_digits [1; 7; 0; 7] (set_counter 7 entry_state)).

(** Three ticks with an object at 10 cm, inside the 45.5 cm zone. *)
Definition three_hits : list readings :=
  [ at_time 1.0%float true (Some 10.0%float) 30000;
    at_time 1.2%float true (Some 10.0%float) 30000;
    at_time 1.4%float true (Some 10.0%float) 30000 ].

(** Two repetitions: the object is at 100 cm, comes to 10 cm, leaves to
    100 cm and comes back to 10 cm. *)
Definition two_reps : list readings :=
  [ at_time 1.0%float true (Some 100.0%float) 30000;
    at_time 1.2%float true (Some 10.0%float) 30000;
    at_time 1.4%float true (Some 100.0%float) 30000;
    at_time 1.6%float true (Some 10.0%float) 30000 ].

(** The reset button held down over five iterations, 2 ms apart. *)
Definition five_pressed : list readings :=
  [ at_time 1.000%float false (Some 100.0%float) 30000;
    at_time 1.002%float false (Some 100.0%float) 30000;
    at_time 1.004%float false (Some 100.0%float) 30000;
    at_time 1.006%float false (Some 100.0%float) 30000;
    at_time 1.008%float false (Some 100.0%float) 30000 ].

(** The button pressed at 9.01 s and held, 10 ms and 20 ms after the last
    sensor tick; then, at 9.2 s, a tick that measures 100 cm. *)
Definition press_between_ticks : list readings :=
  [ at_time 9.01%float false (Some 100.0%float) 30000;
    at_time 9.02%float false (Some 100.0%float) 30000 ].

Definition next_tick : readings :=
  at_time 9.2%float true (Some 100.0%float) 30000.

(** ** Vocabulary of the further properties *)

(** The globals of the beep driver and those of the display multiplexer. *)
Definition beep_view (st : state) : bool * float * Z * Z :=
  (beep_active st, beep_start_time st, buzzer_frequency st,
   buzzer_duty_cycle st).

Definition mux_view (st : state) : list bool * list bool * Z * float :=
  (digits st, segments st, current_digit st, last_display_time st).

(** All seven segment pins high: nothing is lit. *)
Definition ALL_OFF : list bool := [true; true; true; true; true; true; true].

(** The segment pins that show the entry [d]: its pattern, and nothing for
    an entry without a pattern. *)
Definition shown_segments (d : Z) : list bool :=
  match digit_patterns d with
  | Ok p => p
  | Raise _ => ALL_OFF
  end.

(** The digit-select pins when the entry [d] sits at position [cd]: only
    the pin of that position is high, and none for a blank. *)
Definition lit_digits (d cd : Z) : list bool :=
  if d =? BLANK then [false; false; false; false]
  else map (Z.eqb cd) [0; 1; 2; 3].

(** [n] calls of [refresh_display] in a row. *)
Fixpoint refresh_times (n : nat) (st : state) : res state :=
  match n with
  | O => Ok st
  | S k => st <- refresh_display st ;; refresh_times k st
  end.

(** The tests of one iteration, on the state at its start. *)
Definition display_due (r : readings) (st : state) : bool :=
  (DISPLAY_INTERVAL <=? now r - last_display_time st)%float.

Definition sensor_due (r : readings) (st : state) : bool :=
  (SENSOR_INTERVAL <=? now r - last_sensor_time st)%float.

Definition beep_expired (r : readings) (st : state) : bool :=
  beep_active st &&
  (beep_duration <=? beep_clock r - beep_start_time st)%float.

(** The change gate of the potentiometer, line 193. *)
Definition pot_changed (r : readings) (st : state) : bool :=
  pot_tolerance <? Z.abs (potentiometer_value r - last_pot_value st).

(** The iteration counts a repetition: a successful tick that detects while
    the state is Outside. *)
Definition entry_tick (r : readings) (st : state) : bool :=
  ticked r st && detected r && negb (object_inside st).

Definition is_threshold_line (l : line) : bool :=
  match l with ThresholdLine _ => true | _ => false end.

Definition thresholds_reported (st : state) : Z :=
  Z.of_nat (length (filter is_threshold_line (console st))).

(** Repetitions announced since the last "Counter Reset" line (the console
    is newest first). *)
Fixpoint reps_since_reset (lines : list line) : Z :=
  match lines with
  | [] => 0
  | CounterReset :: _ => 0
  | RepDetected _ :: rest => 1 + reps_since_reset rest
  | _ :: rest => reps_since_reset rest
  end.

(** The whole inches that the display shows for a raw reading. *)
Definition shown_threshold (raw : Z) : Z :=
  match py_int (PyFloat (snd (get_pot_value raw))) with
  | Ok t => t
  | Raise _ => 0
  end.

(** Along [n] consecutive readings from [z] on, each shows the same inches
    as the one before it or one inch more; [prev] is what the reading
    before [z] shows. *)
Fixpoint steps_from (n : nat) (z : Z) (prev : Z) : bool :=
  match n with
  | O => true
  | S k =>
      let cur := shown_threshold z in
      (prev <=? cur) && (cur <=? prev + 1) && steps_from k (z + 1) cur
  end.

(** The buzzer sounds exactly while a beep is active. *)
Definition buzzer_consistent (st : state) : Prop :=
  (beep_active st = true /\ buzzer_duty_cycle st = 32768 /\
   buzzer_frequency st = 4000) \/
  (beep_active st = false /\ buzzer_duty_cycle st = 0).

(** The states the program can be in at the top of the loop: the state on
    entry, and the state after one more iteration on hardware readings. *)
Inductive reachable : state -> Prop :=
| reach_entry (raw : Z) (st : state) :
    raw_in_range raw -> initial_state raw = Ok st -> reachable st
| reach_iteration (r : readings) (st st' : state) :
    reachable st -> valid r -> loop_iteration r st = Ok st' ->
    reachable st'.

(** An entry at 1.0 s followed by a quiet iteration at 1.5 s. *)
Definition one_rep : list readings :=
  [ at_time 1.0%float true (Some 10.0%float) 30000;
    at_time 1.5%float true (Some 10.0%float) 30000 ].

(** A first repetition at 1.0 s with the reset button pressed in the same
    iteration and the potentiometer at 30000. *)
Definition first_hit : readings :=
  at_time 1.0%float false (Some 10.0%float) 30000.

(** The state after the two iterations of [one_rep]. *)
Definition after_one_rep : state :=
  match run one_rep entry_state with
  | Ok st => st
  | Raise _ => entry_state
  end.

(** Ninety-nine and more repetitions counted. *)
Definition many_reps : state :=
  set_last_sensor_time 9.0%float (set_counter 150 entry_state).

(** Three ticks with the potentiometer moved within 1000 counts of the
    value -1 that [last_pot_value] starts from. *)
Definition small_turns : list readings :=
  [ at_time 1.0%float true (Some 100.0%float) 500;
    at_time 1.2%float true (Some 100.0%float) 999;
    at_time 1.4%float true (Some 100.0%float) 0 ].

(** The reset input reads not pressed. *)
Definition released (r : readings) : Prop := reset_pin_value r = true.

(** The display holding an entry that is neither a digit nor blank. *)
Definition bad_entry : state := set_display_digits [10; 0; 0; 0] entry_state.

(** The multiplexer position beyond the four entries. *)
Definition bad_position : state := set_current_digit 4 entry_state.

(** * Properties *)

(** [Forall] over a list written out, one element at a time. *)
Ltac forall_each tac :=
  repeat (apply Forall_cons; [tac|]); apply Forall_nil.

(** The range of a concrete raw reading. *)
Ltac raw_range := unfold valid, raw_in_range, POT_MAX; cbn; lia.

(** ** The two-field packer and the digit encoder *)

Lemma clamp_max_min (x : Z) : Z.max 0 (Z.min x 99) = clamp 0 99 x.
Proof.
  unfold clamp.
  destruct (Z.ltb_spec x 0); [lia|].
  destruct (Z.ltb_spec 99 x); lia.
Qed.

Lemma clamp_range (x : Z) : 0 <= clamp 0 99 x <= 99.
Proof.
  unfold clamp.
  destruct (Z.ltb_spec x 0); [lia|].
  destruct (Z.ltb_spec 99 x); lia.
Qed.

Lemma two_digits (n : Z) :
  0 <= n <= 99 ->
  is_digit (n / 10) /\ is_digit (n mod 10) /\ 10 * (n / 10) + n mod 10 = n.
Proof.
  intros Hn. unfold is_digit.
  Z.div_mod_to_equations. lia.
Qed.

Lemma pack_digits_spec (t c : Z) :
  exists t_tens t_ones c_tens c_ones,
    pack_digits t c = [t_tens; t_ones; c_tens; c_ones] /\
    Forall is_digit [t_tens; t_ones; c_tens; c_ones] /\
    10 * t_tens + t_ones = clamp 0 99 t /\
    10 * c_tens + c_ones = clamp 0 99 c.
Proof.
  unfold pack_digits. rewrite !clamp_max_min.
  destruct (two_digits _ (clamp_range t)) as (Ht1 & Ht2 & Ht3).
  destruct (two_digits _ (clamp_range c)) as (Hc1 & Hc2 & Hc3).
  do 4 eexists. split; [reflexivity|].
  split; [|split; assumption].
  forall_each assumption.
Qed.

(** C6. For every pair of integers [t] and [c], negative or above 99
    included, [combine_threshold_and_counter] returns (without raising)
    exactly four entries, each a digit in [0, 9] and hence none blank; the
    first pair reads back (tens * 10 + ones) as [clamp 0 99 t] and the second
    pair as [clamp 0 99 c]. *)
Theorem combine_threshold_and_counter_clamps (t c : Z) :
  exists t_tens t_ones c_tens c_ones,
    combine_threshold_and_counter (PyInt t) (PyInt c)
      = Ok [t_tens; t_ones; c_tens; c_ones] /\
    Forall is_digit [t_tens; t_ones; c_tens; c_ones] /\
    Forall (fun d => d <> BLANK) [t_tens; t_ones; c_tens; c_ones] /\
    10 * t_tens + t_ones = clamp 0 99 t /\
    10 * c_tens + c_ones = clamp 0 99 c.
Proof.
  destruct (pack_digits_spec t c) as (a & b & d & e & Hp & Hd & Ht & Hc).
  exists a, b, d, e. cbn [combine_threshold_and_counter py_int bind].
  rewrite Hp. repeat split; try assumption.
  eapply Forall_impl; [|exact Hd].
  unfold is_digit, BLANK. intros x Hx. lia.
Qed.

(** The encoder by cases on the reduced value. *)
Lemma update_display_digits_cases (v : Z) :
  let m := v mod 10000 in
  update_display_digits v =
    [ if m <? 1000 then BLANK else decimal_digit m 3;
      if m <? 100 then BLANK else decimal_digit m 2;
      if m <? 10 then BLANK else decimal_digit m 1;
      decimal_digit m 0 ].
Proof.
  intros m. unfold update_display_digits. fold m.
  assert (Hm : 0 <= m < 10000) by (apply Z.mod_pos_bound; lia).
  unfold decimal_digit.
  change (10 ^ 3) with 1000. change (10 ^ 2) with 100.
  change (10 ^ 1) with 10. change (10 ^ 0) with 1.
  assert (H3 : m / 1000 = (m / 1000) mod 10)
    by (Z.div_mod_to_equations; lia).
  assert (H2 : (m mod 1000) / 100 = (m / 100) mod 10)
    by (Z.div_mod_to_equations; lia).
  assert (H1 : (m mod 100) / 10 = (m / 10) mod 10)
    by (Z.div_mod_to_equations; lia).
  assert (H0 : m mod 10 = (m / 1) mod 10) by (rewrite Z.div_1_r; reflexivity).
  rewrite <- H3, <- H2, <- H1, <- H0.
  destruct (Z.ltb_spec m 10); [|destruct (Z.ltb_spec m 100);
    [|destruct (Z.ltb_spec m 1000)]];
    repeat match goal with
      | |- context [?a <? ?b] => destruct (Z.ltb_spec a b); try lia
      end; reflexivity.
Qed.

Lemma decimal_digit_range (m k : Z) : is_digit (decimal_digit m k).
Proof.
  unfold is_digit, decimal_digit.
  pose proof (Z.mod_pos_bound (m / 10 ^ k) 10 ltac:(lia)). lia.
Qed.

(** C7. For every integer [v] the digit encoder works on [v mod 10000]
    (it is total, never raising), returns exactly four entries, blanks the
    thousands, hundreds and tens positions exactly when the reduced value is
    below 1000, 100 and 10 respectively (the leading positions beyond the
    first significant digit), shows the decimal digit everywhere else, and
    always shows the ones digit; encode 0 and encode 7 are
    [Blank, Blank, Blank, 0] and [Blank, Blank, Blank, 7]. *)
Theorem update_display_digits_blanks_leading (v : Z) :
  let m := v mod 10000 in
  update_display_digits v = update_display_digits m /\
  length (update_display_digits v) = 4%nat /\
  (exists d3 d2 d1 d0,
     update_display_digits v = [d3; d2; d1; d0] /\
     (d3 = BLANK <-> m < 1000) /\ (1000 <= m -> d3 = decimal_digit m 3) /\
     (d2 = BLANK <-> m < 100) /\ (100 <= m -> d2 = decimal_digit m 2) /\
     (d1 = BLANK <-> m < 10) /\ (10 <= m -> d1 = decimal_digit m 1) /\
     d0 = decimal_digit m 0 /\ is_digit d0 /\ d0 <> BLANK) /\
  update_display_digits 0 = [BLANK; BLANK; BLANK; 0] /\
  update_display_digits 7 = [BLANK; BLANK; BLANK; 7].
Proof.
  intros m.
  assert (Hm : 0 <= m < 10000) by (apply Z.mod_pos_bound; lia).
  split.
  { rewrite (update_display_digits_cases v), (update_display_digits_cases m).
    cbv zeta. fold m. rewrite (Z.mod_small m 10000) by lia. reflexivity. }
  rewrite (update_display_digits_cases v). cbv zeta. fold m.
  split; [reflexivity|].
  split; [|split; reflexivity].
  pose proof (decimal_digit_range m 3) as R3.
  pose proof (decimal_digit_range m 2) as R2.
  pose proof (decimal_digit_range m 1) as R1.
  pose proof (decimal_digit_range m 0) as R0.
  unfold is_digit, BLANK in *.
  do 4 eexists. split; [reflexivity|].
  destruct (Z.ltb_spec m 1000), (Z.ltb_spec m 100), (Z.ltb_spec m 10);
    repeat split; intros; try lia; try reflexivity.
Qed.

(** C10. [update_display_digits v] is four entries, thousands, hundreds,
    tens and ones, each the blank sentinel or a digit 0 to 9; every entry,
    with a blank counting as zero, is the decimal digit of [v mod 10000] at
    its place, so reading the entries as a decimal number (thousands,
    hundreds, tens, ones, blanks as zero) gives back exactly [v mod 10000],
    for every integer [v]. *)
Theorem update_display_digits_roundtrip (v : Z) :
  exists d3 d2 d1 d0,
    update_display_digits v = [d3; d2; d1; d0] /\
    Forall (fun d => d = BLANK \/ is_digit d) [d3; d2; d1; d0] /\
    digit_value d3 = decimal_digit (v mod 10000) 3 /\
    digit_value d2 = decimal_digit (v mod 10000) 2 /\
    digit_value d1 = decimal_digit (v mod 10000) 1 /\
    digit_value d0 = decimal_digit (v mod 10000) 0 /\
    1000 * digit_value d3 + 100 * digit_value d2 + 10 * digit_value d1
      + digit_value d0 = v mod 10000 /\
    decode (update_display_digits v) = v mod 10000.
Proof.
  rewrite update_display_digits_cases. cbv zeta.
  set (m := v mod 10000).
  assert (Hm : 0 <= m < 10000) by (apply Z.mod_pos_bound; lia).
  do 4 eexists. split; [reflexivity|].
  pose proof (decimal_digit_range m 3) as R3.
  pose proof (decimal_digit_range m 2) as R2.
  pose proof (decimal_digit_range m 1) as R1.
  pose proof (decimal_digit_range m 0) as R0.
  split.
  { forall_each ltac:(
      cbv beta;
      try match goal with
        | |- context [?a <? ?b] => destruct (a <? b); [left; reflexivity|]
        end;
      right; assumption). }
  unfold decode, digit_value. cbn [fold_left].
  unfold is_digit, decimal_digit, BLANK in *.
  change (10 ^ 3) with 1000 in *. change (10 ^ 2) with 100 in *.
  change (10 ^ 1) with 10 in *. change (10 ^ 0) with 1 in *.
  repeat match goal with
    | |- context [?a <? ?b] => destruct (Z.ltb_spec a b)
    | |- context [?a =? ?b] => destruct (Z.eqb_spec a b)
    end;
    repeat split; Z.div_mod_to_equations; lia.
Qed.

(** ** The threshold mapper *)

Lemma all_from_spec (p : Z -> bool) (n : nat) :
  forall z, all_from n z p = true ->
  forall x, z <= x < z + Z.of_nat n -> p x = true.
Proof.
  induction n as [|n IH]; intros z Hall x Hx.
  - cbn in Hx. lia.
  - cbn [all_from] in Hall. apply andb_true_iff in Hall as [Hz Hrest].
    destruct (Z.eq_dec x z) as [->|Hne]; [assumption|].
    apply (IH (z + 1)); [assumption|lia].
Qed.

(** Every 16-bit reading passes the check, by evaluating all 65536. *)
Lemma threshold_check_all :
  all_from (Z.to_nat 65536) 0 threshold_check = true.
Proof. vm_compute. reflexivity. Qed.

Lemma threshold_check_in_range (raw : Z) :
  raw_in_range raw -> threshold_check raw = true.
Proof.
  intros [Hlo Hhi]. unfold POT_MAX in Hhi.
  apply (all_from_spec threshold_check _ 0 threshold_check_all).
  rewrite Z2Nat.id; lia.
Qed.

(** The threshold of a 16-bit reading converts to an integer between 2 and
    36, without raising. *)
Lemma threshold_int (raw : Z) :
  raw_in_range raw ->
  exists t, py_int (PyFloat (snd (get_pot_value raw))) = Ok t /\ 2 <= t <= 36.
Proof.
  intros Hraw. pose proof (threshold_check_in_range raw Hraw) as Hc.
  unfold threshold_check in Hc. cbv zeta in Hc.
  apply andb_true_iff in Hc as [_ Hc].
  destruct (py_int (PyFloat (snd (get_pot_value raw)))) as [t|e];
    [|discriminate].
  exists t. split; [reflexivity|].
  apply andb_true_iff in Hc as [H1 H2]. lia.
Qed.

(** The packer on the threshold of a 16-bit reading and an integer counter
    returns four digits. *)
Lemma combine_threshold_ok (raw c : Z) :
  raw_in_range raw ->
  exists t c_tens c_ones,
    py_int (PyFloat (snd (get_pot_value raw))) = Ok t /\ 2 <= t <= 36 /\
    combine_threshold_and_counter (PyFloat (snd (get_pot_value raw))) (PyInt c)
      = Ok [t / 10; t mod 10; c_tens; c_ones] /\
    is_digit (t / 10) /\ is_digit (t mod 10) /\
    is_digit c_tens /\ is_digit c_ones /\
    10 * c_tens + c_ones = clamp 0 99 c.
Proof.
  intros Hraw. destruct (threshold_int raw Hraw) as (t & Ht & Hr).
  destruct (two_digits _ (clamp_range c)) as (Hc1 & Hc2 & Hc3).
  destruct (two_digits t ltac:(lia)) as (Ht1 & Ht2 & _).
  exists t, (clamp 0 99 c / 10), (clamp 0 99 c mod 10).
  split; [assumption|]. split; [assumption|].
  unfold combine_threshold_and_counter. rewrite Ht.
  cbn [bind py_int]. unfold pack_digits. rewrite !clamp_max_min.
  assert (Hid : clamp 0 99 t = t).
  { unfold clamp. destruct (Z.ltb_spec t 0); [lia|].
    destruct (Z.ltb_spec 99 t); lia. }
  rewrite Hid. repeat split; assumption || apply Hc1 || apply Hc2
    || apply Ht1 || apply Ht2 || idtac.
Qed.

(** C9. For every raw reading in [0, 65535] the threshold returned by
    [get_pot_value] lies in [2.0, 36.8]; its integer truncation [t] lies in
    [2, 36]; the clamp to [0, 99] leaves it as it is, and for every counter
    the first two entries that [combine_threshold_and_counter] returns are
    the tens and the ones of [t], which read back as [t]. *)
Theorem threshold_field_never_clamped (raw : Z) :
  raw_in_range raw ->
  let threshold := snd (get_pot_value raw) in
  (2.0 <=? threshold)%float = true /\
  (threshold <=? 36.8)%float = true /\
  exists t,
    py_int (PyFloat threshold) = Ok t /\
    2 <= t <= 36 /\
    clamp 0 99 t = t /\
    10 * (t / 10) + t mod 10 = t /\
    forall c : Z, exists c_tens c_ones,
      combine_threshold_and_counter (PyFloat threshold) (PyInt c)
        = Ok [t / 10; t mod 10; c_tens; c_ones].
Proof.
  intros Hraw threshold.
  pose proof (threshold_check_in_range raw Hraw) as Hc.
  unfold threshold_check in Hc. cbv zeta in Hc. fold threshold in Hc.
  apply andb_true_iff in Hc as [Hc _].
  apply andb_true_iff in Hc as [Hlo Hhi].
  split; [assumption|]. split; [assumption|].
  destruct (threshold_int raw Hraw) as (t & Ht & Hr).
  exists t. split; [assumption|]. split; [assumption|].
  split.
  { unfold clamp. destruct (Z.ltb_spec t 0); [lia|].
    destruct (Z.ltb_spec 99 t); lia. }
  split; [Z.div_mod_to_equations; lia|].
  intros c.
  destruct (combine_threshold_ok raw c Hraw)
    as (t' & ct & co & Ht' & _ & Hcomb & _).
  rewrite Ht in Ht'. injection Ht' as <-.
  exists ct, co. exact Hcomb.
Qed.

Lemma threshold_field_never_clamped_witness :
  raw_in_range 30000 /\
  exists c_tens c_ones,
    combine_threshold_and_counter (PyFloat (snd (get_pot_value 30000)))
      (PyInt 107) = Ok [1; 7; c_tens; c_ones].
Proof.
  assert (Hraw : raw_in_range 30000) by raw_range.
  split; [exact Hraw|].
  destruct (threshold_field_never_clamped 30000 Hraw)
    as (_ & _ & t & Ht & _ & _ & _ & Hc).
  assert (Ht17 : t = 17).
  { assert (E : py_int (PyFloat (snd (get_pot_value 30000))) = Ok 17)
      by (vm_compute; reflexivity).
    rewrite E in Ht. injection Ht as <-. reflexivity. }
  subst t. exact (Hc 107).
Defined.

(** Two floats that compare different, one of them not NaN, are
    different. *)
Lemma float_neq (x y : float) :
  (x =? y)%float = false -> (y =? y)%float = true -> x <> y.
Proof. intros Hxy Hyy Heq. subst y. congruence. Qed.

(** C3 (counterexample). The returned threshold at the two ends of the
    range is not the value
    of the linear map: a reading of 0 gives 2.0 and not 5.0, a reading of
    65535 gives 36.8 and not 92.0. *)
Lemma get_pot_value_not_linear_endpoints :
  snd (get_pot_value 0) <> 5.0%float /\
  snd (get_pot_value POT_MAX) <> 92.0%float.
Proof. split; apply float_neq; vm_compute; reflexivity. Qed.

(** C3 (amended). [get_pot_value] computes the linear map
    [5.0 + (raw / 65535) * (92.0 - 5.0)], which is 5.0 at reading 0 and 92.0
    at reading 65535, and returns that value divided by 2.5: the threshold
    it yields is 2.0 at reading 0 and 36.8 at reading 65535. The comparison
    of the detection converts the threshold back with 2.54 and so works
    with 5.08 and 93.472. *)
Theorem get_pot_value_endpoints :
  (forall raw : Z,
     get_pot_value raw
       = (raw, (5.0 + int_truediv raw 65535 * (92.0 - 5.0)) / 2.5)%float) /\
  threshold_cm_of_raw 0 = 5.0%float /\
  threshold_cm_of_raw POT_MAX = 92.0%float /\
  snd (get_pot_value 0) = 2.0%float /\
  snd (get_pot_value POT_MAX) = 36.8%float /\
  (snd (get_pot_value 0) * 2.54)%float = 5.08%float /\
  (snd (get_pot_value POT_MAX) * 2.54)%float = 93.472%float.
Proof.
  split; [intros raw; reflexivity|].
  repeat split; vm_compute; reflexivity.
Qed.

(** ** The beep driver *)

(** A beep that is sounding since time 1.0. *)
Lemma start_beep_active_example :
  let st := start_beep 4000 1.0%float boot_state in
  beep_active st = true /\ beep_start_time st = 1.0%float /\
  buzzer_frequency st = 4000 /\ buzzer_duty_cycle st = 32768.
Proof. repeat split. Qed.

(** C2 (counterexample). Calling [start_beep] while a beep is active is
    not a no-op: the start
    timestamp is replaced by the time of the call, and a different
    frequency replaces the one of the sounding tone. *)
Lemma start_beep_while_active_restarts :
  let st := start_beep 4000 1.0%float boot_state in
  beep_active st = true /\
  beep_start_time (start_beep 4000 1.2%float st) <> beep_start_time st /\
  buzzer_frequency (start_beep 2000 1.2%float st) <> buzzer_frequency st.
Proof.
  cbv zeta. split; [reflexivity|]. split.
  - apply float_neq; vm_compute; reflexivity.
  - cbn. discriminate.
Qed.

(** C2 (amended). [start_beep] does not look at [beep_active]: every call,
    whether or not a beep is sounding, sets the frequency to the one asked
    for, the duty cycle to 32768, the start timestamp to the time of the
    call and [beep_active] to true, and changes nothing else. A call while
    a beep is active therefore restarts its timer: the time-out of the loop
    silences the tone once 0.3 s have passed since the latest call. The
    frequency is left as it was exactly when the tone already had the
    frequency asked for, and the duty cycle exactly when it already was
    32768. *)
Theorem start_beep_unconditional (frequency : Z) (clock : float) (st : state) :
  let st' := start_beep frequency clock st in
  (buzzer_frequency st' = buzzer_frequency st <->
   buzzer_frequency st = frequency) /\
  (buzzer_duty_cycle st' = buzzer_duty_cycle st <->
   buzzer_duty_cycle st = 32768) /\
  (forall r : readings,
     beep_active (beep_update r st')
       = negb (beep_duration <=? beep_clock r - clock)%float /\
     buzzer_duty_cycle (beep_update r st')
       = if (beep_duration <=? beep_clock r - clock)%float then 0 else 32768) /\
  buzzer_frequency st' = frequency /\
  buzzer_duty_cycle st' = 32768 /\
  beep_start_time st' = clock /\
  beep_active st' = true /\
  last_reset_state st' = last_reset_state st /\
  last_pot_value st' = last_pot_value st /\
  object_inside st' = object_inside st /\
  digits st' = digits st /\
  segments st' = segments st /\
  counter st' = counter st /\
  display_digits st' = display_digits st /\
  current_digit st' = current_digit st /\
  last_display_time st' = last_display_time st /\
  last_sensor_time st' = last_sensor_time st /\
  console st' = console st.
Proof.
  cbv zeta.
  split; [unfold start_beep; cbn; split; intros E; symmetry; exact E|].
  split; [unfold start_beep; cbn; split; intros E; symmetry; exact E|].
  split.
  - intros r. unfold beep_update, start_beep.
    cbn [beep_active beep_start_time set_beep_active set_beep_start_time].
    destruct (beep_duration <=? beep_clock r - clock)%float;
      split; reflexivity.
  - unfold start_beep. repeat split.
Qed.

(** ** The sensor tick *)

Lemma get_pot_value_pair (raw : Z) :
  get_pot_value raw = (raw, snd (get_pot_value raw)).
Proof. reflexivity. Qed.

Lemma successful_detected (r : readings) :
  successful r ->
  exists d, sonar_distance r = Some d /\
            detected r = detected_at (potentiometer_value r) d.
Proof.
  intros [Hd _]. unfold detected.
  destruct (sonar_distance r) as [d|]; [|congruence].
  exists d. split; reflexivity.
Qed.

(** What a successful sensor tick does to the globals. *)
Lemma sensor_tick_success (r : readings) (st : state) :
  successful r ->
  exists st',
    sensor_tick r st = Ok st' /\
    object_inside st' = detected r /\
    counter st' =
      counter st + (if detected r && negb (object_inside st) then 1 else 0) /\
    reps_announced st' =
      reps_announced st
      + (if detected r && negb (object_inside st) then 1 else 0) /\
    resets_fired st' = resets_fired st /\
    combine_threshold_and_counter
      (PyFloat (snd (get_pot_value (potentiometer_value r))))
      (PyInt (counter st')) = Ok (display_digits st') /\
    digits st' = digits st /\
    segments st' = segments st /\
    current_digit st' = current_digit st /\
    last_reset_state st' = last_reset_state st /\
    last_sensor_time st' = now r.
Proof.
  intros Hs. destruct (successful_detected r Hs) as (d & Hd & Hdet).
  destruct Hs as [_ Hraw].
  rewrite Hdet. unfold detected_at.
  unfold sensor_tick, sensor_guarded, sensor_try, sonar_read.
  rewrite Hd. cbn [bind].
  pose proof (fun c => combine_threshold_ok (potentiometer_value r) c Hraw)
    as Hcomb.
  pose proof (get_pot_value_pair (potentiometer_value r)) as Hpair.
  remember (snd (get_pot_value (potentiometer_value r))) as th eqn:Hth in *.
  rewrite Hpair. clear Hpair.
  remember (d <=? th * 2.54)%float as det eqn:Hdet' in *.
  clear Hth Hdet' Hdet.
  unfold reps_announced, resets_fired.
  unfold start_beep.
  destruct (pot_tolerance <? Z.abs (potentiometer_value r - last_pot_value st));
    cbn [object_inside set_last_pot_value print];
    destruct det; destruct (object_inside st) eqn:Hin;
    cbn [andb negb]; cbn [counter set_object_inside set_beep_active
      set_beep_start_time set_buzzer_duty_cycle set_buzzer_frequency print
      set_counter set_last_pot_value];
    match goal with
    | |- context [combine_threshold_and_counter _ (PyInt ?c)] =>
        destruct (Hcomb c) as (t & ct & co & _ & _ & Hc & _)
    end;
    rewrite Hc; cbn [bind];
    eexists; (split; [reflexivity|]);
    cbn; rewrite ?Hc; repeat split;
    rewrite ?Zpos_P_of_succ_nat; assumption || lia.
Qed.

Lemma sensor_tick_failure (r : readings) (st : state) :
  sonar_distance r = None ->
  sensor_tick r st = Ok (set_last_sensor_time (now r) st).
Proof.
  intros Hd.
  unfold sensor_tick, sensor_guarded, sensor_try, sonar_read.
  rewrite Hd. reflexivity.
Qed.

(** C4. On a sensor tick whose distance measurement raises the transient
    failure, no exception leaves the tick and the tick changes nothing but
    [last_sensor_time]: the counter, the detection state and the display
    digits are exactly as before (and so are the potentiometer gate, the
    beep and the console). The same holds for the tick as the loop
    schedules it. *)
Theorem sensor_failure_skips_tick (r : readings) (st : state) :
  sonar_distance r = None ->
  exists st',
    sensor_tick r st = Ok st' /\
    (sensor_poll r st = Ok st' \/ sensor_poll r st = Ok st) /\
    counter st' = counter st /\
    object_inside st' = object_inside st /\
    display_digits st' = display_digits st /\
    last_pot_value st' = last_pot_value st /\
    beep_active st' = beep_active st /\
    beep_start_time st' = beep_start_time st /\
    buzzer_frequency st' = buzzer_frequency st /\
    buzzer_duty_cycle st' = buzzer_duty_cycle st /\
    console st' = console st.
Proof.
  intros Hd. exists (set_last_sensor_time (now r) st).
  split; [apply sensor_tick_failure; assumption|].
  split.
  - unfold sensor_poll.
    destruct (SENSOR_INTERVAL <=? now r - last_sensor_time st)%float.
    + left. apply sensor_tick_failure; assumption.
    + right. reflexivity.
  - repeat split.
Qed.

Lemma sensor_failure_skips_tick_witness :
  exists st',
    sensor_tick lost_echo boot_state = Ok st' /\
    counter st' = counter boot_state /\
    object_inside st' = object_inside boot_state /\
    display_digits st' = display_digits boot_state.
Proof.
  destruct (sensor_failure_skips_tick lost_echo boot_state eq_refl)
    as (st' & Ht & _ & Hc & Hi & Hd & _).
  exists st'. repeat split; assumption.
Defined.

(** ** Counting repetitions *)

Lemma entries_all_detected (trace : list bool) (inside : bool) :
  trace <> [] -> Forall (fun b => b = true) trace ->
  entries inside trace = if inside then 0 else 1.
Proof.
  revert inside. induction trace as [|b rest IH]; intros inside Hne Hall.
  - congruence.
  - inversion Hall as [|? ? Hb Hrest]; subst. cbn [entries andb].
    destruct rest as [|b' rest'].
    + destruct inside; reflexivity.
    + rewrite (IH true) by (congruence || assumption).
      destruct inside; reflexivity.
Qed.

Lemma entries_leave_enter (k : nat) (inside : bool) :
  entries inside (cycles k [false; true]) = Z.of_nat k.
Proof.
  revert inside. induction k as [|k IH]; intros inside.
  - reflexivity.
  - cbn [cycles app entries andb negb]. rewrite IH. lia.
Qed.

Lemma entries_enter_leave (k : nat) :
  entries false (cycles k [true; false]) = Z.of_nat k.
Proof.
  induction k as [|k IH].
  - reflexivity.
  - cbn [cycles app entries andb negb]. rewrite IH. lia.
Qed.

(** A sequence of successful ticks runs to the end; the detection state
    after each tick is the outcome of its comparison, and the counter and
    the announced repetitions grow by the number of entries. *)
Lemma run_ticks_success (rs : list readings) :
  forall st, Forall successful rs ->
  exists st',
    run_ticks rs st = Ok st' /\
    inside_trace rs st = map detected rs /\
    counter st' = counter st + entries (object_inside st) (inside_trace rs st) /\
    reps_announced st' =
      reps_announced st + entries (object_inside st) (inside_trace rs st).
Proof.
  induction rs as [|r rest IH]; intros st Hall.
  - exists st. cbn. repeat split; lia.
  - inversion Hall as [|? ? Hr Hrest]; subst.
    destruct (sensor_tick_success r st Hr)
      as (st1 & Ht & Hin & Hc & Hrep & _).
    destruct (IH st1 Hrest) as (st' & Hrun & Htr & Hc' & Hrep').
    exists st'. cbn [run_ticks inside_trace map]. rewrite Ht. cbn [bind].
    split; [assumption|]. rewrite Htr, Hin.
    split; [reflexivity|].
    cbn [entries]. rewrite Htr, Hin in Hc', Hrep'. lia.
Qed.

(** C1. Along every sequence of successful sensor ticks the repetition
    counter (and the number of announced repetitions) grows by exactly the
    number of Outside-to-Inside transitions of the detection state. In
    particular a run of N >= 1 ticks that all detect adds exactly 1 when it
    starts Outside (and nothing when it starts Inside), K alternations
    "above, below" add exactly K, and K alternations "below, above" that
    start Outside add exactly K. *)
Theorem counter_counts_entries (rs : list readings) (st : state) :
  Forall successful rs ->
  exists st',
    run_ticks rs st = Ok st' /\
    counter st' = counter st + entries (object_inside st) (inside_trace rs st) /\
    reps_announced st' =
      reps_announced st + entries (object_inside st) (inside_trace rs st) /\
    inside_trace rs st = map detected rs /\
    (rs <> [] -> Forall (fun r => detected r = true) rs ->
     counter st' = counter st + (if object_inside st then 0 else 1)) /\
    (forall k : nat, map detected rs = cycles k [false; true] ->
     counter st' = counter st + Z.of_nat k) /\
    (forall k : nat, object_inside st = false ->
     map detected rs = cycles k [true; false] ->
     counter st' = counter st + Z.of_nat k).
Proof.
  intros Hall.
  destruct (run_ticks_success rs st Hall) as (st' & Hrun & Htr & Hc & Hrep).
  exists st'. repeat (split; [assumption|]).
  rewrite Htr in Hc. split; [|split].
  - intros Hne Hdet. rewrite Hc. f_equal.
    apply entries_all_detected.
    + destruct rs; [congruence|discriminate].
    + apply Forall_map. exact Hdet.
  - intros k Hk. rewrite Hc, Hk, entries_leave_enter. reflexivity.
  - intros k Hout Hk. rewrite Hc, Hk, Hout, entries_enter_leave. reflexivity.
Qed.

(** ** The loop keeps its shape *)

Lemma digit_patterns_length (d : Z) :
  is_digit d -> exists p, digit_patterns d = Ok p /\ length p = 7%nat.
Proof.
  unfold is_digit. intros Hd.
  assert (Hcases : d = 0 \/ d = 1 \/ d = 2 \/ d = 3 \/ d = 4 \/ d = 5 \/
                   d = 6 \/ d = 7 \/ d = 8 \/ d = 9) by lia.
  repeat (destruct Hcases as [->|Hcases]); try subst d;
    eexists; split; reflexivity.
Qed.

Lemma drive_segments_full (pattern segs : list bool) :
  length pattern = 7%nat -> length segs = 7%nat ->
  drive_segments [0; 1; 2; 3; 4; 5; 6] pattern segs = Ok pattern.
Proof.
  intros Hp Hs.
  do 8 (destruct pattern as [|? pattern]; try discriminate).
  do 8 (destruct segs as [|? segs]; try discriminate).
  reflexivity.
Qed.

Lemma four_entries {A : Type} (l : list A) :
  length l = 4%nat -> exists a b c d, l = [a; b; c; d].
Proof.
  intros Hl. do 5 (destruct l as [|? l]; try discriminate).
  do 4 eexists. reflexivity.
Qed.

(** [refresh_display] on a well-shaped state writes the pins and advances
    the position, and nothing else. *)
Lemma refresh_display_ok (st : state) :
  wf_state st ->
  exists ds ss,
    refresh_display st
      = Ok (set_current_digit ((current_digit st + 1) mod 4)
              (set_digits ds (set_segments ss st))) /\
    length ds = 4%nat /\ length ss = 7%nat.
Proof.
  intros (Hd & Hs & Hdd & Hall & Hcd).
  destruct (four_entries _ Hd) as (p0 & p1 & p2 & p3 & Hdigits).
  destruct (four_entries _ Hdd) as (w & x & y & z & Hdisp).
  rewrite Hdisp in Hall.
  assert (Hval : exists val,
             py_index (display_digits st) (current_digit st) = Ok val /\
             (val = BLANK \/ is_digit val)).
  { rewrite Hdisp.
    inversion Hall as [|? ? Hw Hall1]; subst.
    inversion Hall1 as [|? ? Hx Hall2]; subst.
    inversion Hall2 as [|? ? Hy Hall3]; subst.
    inversion Hall3 as [|? ? Hz _]; subst.
    assert (Hcases : current_digit st = 0 \/ current_digit st = 1 \/
                     current_digit st = 2 \/ current_digit st = 3) by lia.
    destruct Hcases as [-> | [-> | [-> | ->]]]; eexists; split;
      try reflexivity; assumption. }
  destruct Hval as (val & Hidx & Hv).
  unfold refresh_display.
  cbn [display_digits current_digit set_segments set_digits digits segments].
  rewrite Hidx. cbn [bind].
  destruct Hv as [-> | Hdig].
  - cbn [Z.eqb BLANK negb bind Pos.eqb].
    exists (map (fun _ => false) (digits st)),
           (map (fun _ => true) (segments st)).
    split; [destruct st; reflexivity|].
    rewrite !length_map. split; assumption.
  - assert (Hnb : negb (val =? -1) = true).
    { unfold is_digit in Hdig. destruct (Z.eqb_spec val (-1)); [lia|].
      reflexivity. }
    rewrite Hnb.
    destruct (digit_patterns_length val Hdig) as (p & Hp & Hlen).
    rewrite Hp. cbn [bind].
    rewrite drive_segments_full by (rewrite ?length_map; assumption).
    cbn [bind].
    assert (Hset : exists ds,
               py_setitem (map (fun _ : bool => false) (digits st))
                 (current_digit st) true = Ok ds /\ length ds = 4%nat).
    { rewrite Hdigits.
      assert (Hcases : current_digit st = 0 \/ current_digit st = 1 \/
                       current_digit st = 2 \/ current_digit st = 3) by lia.
      destruct Hcases as [-> | [-> | [-> | ->]]]; eexists; split;
        reflexivity. }
    destruct Hset as (ds & Hds & Hdslen).
    rewrite Hds. cbn [bind].
    exists ds, p. split; [destruct st; reflexivity|].
    split; assumption.
Qed.

Lemma beep_update_frame (r : readings) (st : state) :
  untouched st (beep_update r st) /\
  (wf_state st -> wf_state (beep_update r st)).
Proof.
  unfold beep_update.
  destruct (beep_active st);
    [destruct (beep_duration <=? beep_clock r - beep_start_time st)%float|];
    split; try (repeat split; fail); intros Hwf; exact Hwf.
Qed.

Lemma display_update_ok (r : readings) (st : state) :
  wf_state st ->
  exists st',
    display_update r st = Ok st' /\ wf_state st' /\ untouched st st'.
Proof.
  intros Hwf. unfold display_update.
  destruct (DISPLAY_INTERVAL <=? now r - last_display_time st)%float.
  - destruct (refresh_display_ok st Hwf) as (ds & ss & Href & Hds & Hss).
    rewrite Href. cbn [bind]. eexists. split; [reflexivity|].
    destruct Hwf as (_ & _ & Hdd & Hall & Hcd).
    split; [|repeat split].
    unfold wf_state. cbn.
    repeat split; try assumption;
      pose proof (Z.mod_pos_bound (current_digit st + 1) 4 ltac:(lia)); lia.
  - exists st. split; [reflexivity|]. split; [assumption|repeat split].
Qed.

(** The reset block on its own. *)
Lemma reset_button_spec (r : readings) (st : state) :
  let st' := reset_button r st in
  last_reset_state st' = reset_pin_value r /\
  counter st' = (if press_edge r st then 0 else counter st) /\
  resets_fired st' = resets_fired st + (if press_edge r st then 1 else 0) /\
  console st' = (if press_edge r st then CounterReset :: console st
                 else console st) /\
  object_inside st' = object_inside st /\
  display_digits st' = display_digits st /\
  digits st' = digits st /\
  segments st' = segments st /\
  current_digit st' = current_digit st /\
  last_pot_value st' = last_pot_value st /\
  buzzer_frequency st' = buzzer_frequency st /\
  buzzer_duty_cycle st' = buzzer_duty_cycle st /\
  beep_active st' = beep_active st /\
  beep_start_time st' = beep_start_time st /\
  last_display_time st' = last_display_time st /\
  last_sensor_time st' = last_sensor_time st.
Proof.
  unfold reset_button, press_edge, resets_fired.
  destruct (negb (reset_pin_value r) && last_reset_state st);
    cbn; rewrite ?Zpos_P_of_succ_nat; repeat split; lia.
Qed.

Lemma reset_button_wf (r : readings) (st : state) :
  wf_state st -> wf_state (reset_button r st).
Proof.
  unfold wf_state.
  destruct (reset_button_spec r st)
    as (_ & _ & _ & _ & _ & Hdd & Hd & Hs & Hcd & _).
  rewrite Hdd, Hd, Hs, Hcd. trivial.
Qed.

(** The sensor read as scheduled: it never raises on hardware readings,
    keeps the shape, leaves the reset bookkeeping alone, and touches the
    counter, the detection state and the display only on a successful
    tick, where the display is recomputed from the counter. *)
Lemma sensor_poll_ok (r : readings) (st : state) :
  wf_state st -> valid r ->
  exists st',
    sensor_poll r st = Ok st' /\ wf_state st' /\
    last_reset_state st' = last_reset_state st /\
    resets_fired st' = resets_fired st /\
    (ticked r st = false ->
     counter st' = counter st /\ object_inside st' = object_inside st /\
     display_digits st' = display_digits st) /\
    (ticked r st = true ->
     combine_threshold_and_counter
       (PyFloat (snd (get_pot_value (potentiometer_value r))))
       (PyInt (counter st')) = Ok (display_digits st')).
Proof.
  intros Hwf Hv. unfold sensor_poll, ticked.
  destruct (SENSOR_INTERVAL <=? now r - last_sensor_time st)%float;
    cbn [andb].
  - destruct (sonar_distance r) as [d|] eqn:Hd.
    + assert (Hs : successful r) by (split; [congruence|exact Hv]).
      destruct (sensor_tick_success r st Hs)
        as (st' & Ht & _ & _ & _ & Hres & Hcomb & Hdig & Hseg & Hcd & Hlrs & _).
      exists st'. split; [assumption|].
      destruct (combine_threshold_ok (potentiometer_value r) (counter st') Hv)
        as (t & ct & co & _ & _ & Hc & D1 & D2 & D3 & D4 & _).
      rewrite Hc in Hcomb. injection Hcomb as Hdisp.
      split.
      { destruct Hwf as (W1 & W2 & _ & _ & W5). unfold wf_state.
        rewrite Hdig, Hseg, Hcd, <- Hdisp.
        repeat split; try assumption; try lia.
        forall_each ltac:(right; assumption). }
      repeat split; try assumption; try discriminate.
      intros _. rewrite Hc, Hdisp. reflexivity.
    + rewrite (sensor_tick_failure r st Hd). eexists.
      split; [reflexivity|]. split; [exact Hwf|].
      repeat split; discriminate.
  - exists st. split; [reflexivity|]. split; [exact Hwf|].
    repeat split; discriminate.
Qed.

(** One iteration on hardware readings from a well-shaped state. *)
Lemma loop_iteration_ok (r : readings) (st : state) :
  wf_state st -> valid r ->
  exists st',
    loop_iteration r st = Ok st' /\ wf_state st' /\
    last_reset_state st' = reset_pin_value r /\
    resets_fired st' = resets_fired st + (if press_edge r st then 1 else 0) /\
    (ticked r st = false ->
     counter st' = (if press_edge r st then 0 else counter st) /\
     object_inside st' = object_inside st /\
     display_digits st' = display_digits st) /\
    (ticked r st = true ->
     combine_threshold_and_counter
       (PyFloat (snd (get_pot_value (potentiometer_value r))))
       (PyInt (counter st')) = Ok (display_digits st')).
Proof.
  intros Hwf Hv. unfold loop_iteration.
  destruct (beep_update_frame r st) as (Hub & Hwfb).
  destruct (display_update_ok r (beep_update r st) (Hwfb Hwf))
    as (st2 & Hdu & Hwf2 & Hud).
  rewrite Hdu. cbn [bind].
  destruct Hub as (B1 & B2 & B3 & B4 & B5 & B6 & B7).
  destruct Hud as (U1 & U2 & U3 & U4 & U5 & U6 & U7).
  destruct (reset_button_spec r st2)
    as (R1 & R2 & R3 & _ & R5 & R6 & _ & _ & _ & _ & _ & _ & _ & _ & _ & R16).
  destruct (sensor_poll_ok r (reset_button r st2) (reset_button_wf r st2 Hwf2) Hv)
    as (st' & Hp & Hwf' & P1 & P2 & P3 & P4).
  exists st'. split; [assumption|]. split; [assumption|].
  assert (Hedge : press_edge r st2 = press_edge r st)
    by (unfold press_edge; rewrite U4, B4; reflexivity).
  assert (Htick : ticked r (reset_button r st2) = ticked r st)
    by (unfold ticked; rewrite R16, U5, B5; reflexivity).
  assert (Hfired : resets_fired st2 = resets_fired st)
    by (unfold resets_fired; rewrite U7, B7; reflexivity).
  rewrite Htick in P3, P4. rewrite Hedge in R2, R3.
  split; [congruence|]. split; [lia|]. split.
  - intros Hno. destruct (P3 Hno) as (Q1 & Q2 & Q3).
    split; [rewrite Q1, R2, U1, B1; reflexivity|].
    split; congruence.
  - exact P4.
Qed.

(** ** The reset input *)

Lemma entry_state_initial : initial_state 30000 = Ok entry_state.
Proof. vm_compute. reflexivity. Qed.

Lemma initial_state_wf (raw : Z) :
  raw_in_range raw -> exists st, initial_state raw = Ok st /\ wf_state st.
Proof.
  intros Hraw. unfold initial_state. rewrite get_pot_value_pair.
  destruct (combine_threshold_ok raw (counter boot_state) Hraw)
    as (t & ct & co & _ & _ & Hc & D1 & D2 & D3 & D4 & _).
  rewrite Hc. cbn [bind]. eexists. split; [reflexivity|].
  unfold wf_state. cbn. repeat split; try lia.
  forall_each ltac:(right; assumption).
Qed.

Lemma press_edge_iff (r : readings) (st : state) :
  press_edge r st = true <->
  last_reset_state st = true /\ reset_pin_value r = false.
Proof.
  unfold press_edge.
  destruct (reset_pin_value r), (last_reset_state st); cbn; intuition congruence.
Qed.

(** While the button stays pressed after a pressed sample, nothing fires. *)
Lemma run_still_pressed (rs : list readings) :
  forall st,
    wf_state st -> Forall valid rs -> Forall pressed rs ->
    last_reset_state st = false ->
    exists st',
      run rs st = Ok st' /\ wf_state st' /\
      last_reset_state st' = false /\ resets_fired st' = resets_fired st.
Proof.
  induction rs as [|r rest IH]; intros st Hwf Hv Hp Hlast.
  - exists st. split; [reflexivity|]. split; [assumption|].
    split; [assumption|reflexivity].
  - inversion Hv as [|? ? Hvr Hvrest]; subst.
    inversion Hp as [|? ? Hpr Hprest]; subst.
    destruct (loop_iteration_ok r st Hwf Hvr)
      as (st1 & Hit & Hwf1 & Hl1 & Hf1 & _).
    unfold pressed in Hpr. rewrite Hpr in Hl1.
    assert (Hedge : press_edge r st = false)
      by (unfold press_edge; rewrite Hlast; apply andb_false_r).
    rewrite Hedge in Hf1.
    destruct (IH st1 Hwf1 Hvrest Hprest Hl1) as (st' & Hrun & Hwf' & Hl' & Hf').
    exists st'. cbn [run]. rewrite Hit. cbn [bind].
    split; [assumption|]. split; [assumption|].
    split; [assumption|lia].
Qed.

(** C5. The reset block zeroes the counter (and announces the reset)
    exactly on the edge where the previous sample reads not pressed and the
    current sample reads pressed, and otherwise leaves the counter as it
    is. Over every run of iterations in which the button reads pressed
    throughout (five consecutive iterations, say), the reset fires exactly
    once when the button was not pressed before the run, and not at all
    when it already was. *)
Theorem reset_fires_once_per_press (rs : list readings) (st : state) :
  wf_state st -> Forall valid rs -> Forall pressed rs -> rs <> [] ->
  (forall (r0 : readings) (st0 : state),
     (press_edge r0 st0 = true <->
      last_reset_state st0 = true /\ reset_pin_value r0 = false) /\
     counter (reset_button r0 st0)
       = (if press_edge r0 st0 then 0 else counter st0) /\
     resets_fired (reset_button r0 st0)
       = resets_fired st0 + (if press_edge r0 st0 then 1 else 0) /\
     last_reset_state (reset_button r0 st0) = reset_pin_value r0) /\
  exists st',
    run rs st = Ok st' /\
    resets_fired st' = resets_fired st + (if last_reset_state st then 1 else 0).
Proof.
  intros Hwf Hv Hp Hne. split.
  - intros r0 st0.
    destruct (reset_button_spec r0 st0) as (R1 & R2 & R3 & _).
    split; [apply press_edge_iff|]. repeat split; assumption.
  - destruct rs as [|r rest]; [congruence|].
    inversion Hv as [|? ? Hvr Hvrest]; subst.
    inversion Hp as [|? ? Hpr Hprest]; subst.
    destruct (loop_iteration_ok r st Hwf Hvr)
      as (st1 & Hit & Hwf1 & Hl1 & Hf1 & _).
    unfold pressed in Hpr. rewrite Hpr in Hl1.
    assert (Hedge : press_edge r st = last_reset_state st)
      by (unfold press_edge; rewrite Hpr; reflexivity).
    rewrite Hedge in Hf1.
    destruct (run_still_pressed rest st1 Hwf1 Hvrest Hprest Hl1)
      as (st' & Hrun & _ & _ & Hf').
    exists st'. cbn [run]. rewrite Hit. cbn [bind].
    split; [assumption|lia].
Qed.

Lemma reset_fires_once_per_press_witness :
  exists st',
    run five_pressed entry_state = Ok st' /\ resets_fired st' = 1.
Proof.
  assert (Hwf : wf_state entry_state).
  { unfold wf_state, is_digit, BLANK. cbn. repeat split; try lia.
    forall_each ltac:(right; lia). }
  assert (Hv : Forall valid five_pressed) by (forall_each raw_range).
  assert (Hp : Forall pressed five_pressed)
    by (forall_each ltac:(reflexivity)).
  assert (Hne : five_pressed <> []) by discriminate.
  destruct (reset_fires_once_per_press five_pressed entry_state Hwf Hv Hp Hne)
    as (_ & st' & Hrun & Hfired).
  exists st'. split; [exact Hrun|exact Hfired].
Defined.

Lemma counter_counts_entries_witness :
  (exists st',
     run_ticks three_hits entry_state = Ok st' /\
     counter st' = counter entry_state + 1) /\
  (exists st',
     run_ticks two_reps entry_state = Ok st' /\
     counter st' = counter entry_state + 2).
Proof.
  split.
  - assert (Hs : Forall successful three_hits)
      by (forall_each ltac:(split; [discriminate|raw_range])).
    assert (Hd : Forall (fun r => detected r = true) three_hits)
      by (forall_each ltac:(vm_compute; reflexivity)).
    assert (Hne : three_hits <> []) by discriminate.
    destruct (counter_counts_entries three_hits entry_state Hs)
      as (st' & Hrun & _ & _ & _ & Hn & _).
    exists st'. split; [exact Hrun|exact (Hn Hne Hd)].
  - assert (Hs : Forall successful two_reps)
      by (forall_each ltac:(split; [discriminate|raw_range])).
    assert (Hk : map detected two_reps = cycles 2 [false; true])
      by (vm_compute; reflexivity).
    destruct (counter_counts_entries two_reps entry_state Hs)
      as (st' & Hrun & _ & _ & _ & _ & Halt & _).
    exists st'. split; [exact Hrun|exact (Halt 2%nat Hk)].
Defined.

(** ** The display after a reset *)

(** Iterations without a successful sensor tick leave the display digits
    and the detection state as they are. *)
Lemma quiet_run_display (rs : list readings) :
  forall st,
    wf_state st -> Forall valid rs -> quiet_run rs st ->
    exists st',
      run rs st = Ok st' /\ wf_state st' /\
      display_digits st' = display_digits st /\
      object_inside st' = object_inside st /\
      (counter st' = counter st \/ counter st' = 0).
Proof.
  induction rs as [|r rest IH]; intros st Hwf Hv Hq.
  - exists st. split; [reflexivity|]. split; [assumption|].
    split; [reflexivity|]. split; [reflexivity|left; reflexivity].
  - inversion Hv as [|? ? Hvr Hvrest]; subst.
    destruct Hq as [Hno Hq].
    destruct (loop_iteration_ok r st Hwf Hvr)
      as (st1 & Hit & Hwf1 & _ & _ & Hquiet & _).
    rewrite Hit in Hq.
    destruct (Hquiet Hno) as (Hc1 & Hi1 & Hd1).
    destruct (IH st1 Hwf1 Hvrest Hq) as (st' & Hrun & Hwf' & Hd' & Hi' & Hc').
    exists st'. cbn [run]. rewrite Hit. cbn [bind].
    split; [assumption|]. split; [assumption|].
    split; [congruence|]. split; [congruence|].
    destruct (press_edge r st); destruct Hc' as [Hc'|Hc']; rewrite Hc';
      auto.
Qed.

(** C8. The reset block writes only the counter and the stored previous
    button state (and prints its line): the display digits, the detection
    state and every other global are as before. Through any run of
    iterations without a successful sensor tick, resets included, the
    display digits stay exactly what they were, so they keep showing the
    count from before the reset; the iteration that performs the next
    successful sensor tick recomputes them from the threshold and the
    counter of that moment. *)
Theorem reset_leaves_display_stale
  (rs : list readings) (r : readings) (st : state) :
  wf_state st -> Forall valid rs -> valid r -> quiet_run rs st ->
  (forall (r0 : readings) (st0 : state),
     let st1 := reset_button r0 st0 in
     display_digits st1 = display_digits st0 /\
     object_inside st1 = object_inside st0 /\
     digits st1 = digits st0 /\ segments st1 = segments st0 /\
     current_digit st1 = current_digit st0 /\
     last_pot_value st1 = last_pot_value st0 /\
     buzzer_frequency st1 = buzzer_frequency st0 /\
     buzzer_duty_cycle st1 = buzzer_duty_cycle st0 /\
     beep_active st1 = beep_active st0 /\
     beep_start_time st1 = beep_start_time st0 /\
     last_display_time st1 = last_display_time st0 /\
     last_sensor_time st1 = last_sensor_time st0 /\
     counter st1 = (if press_edge r0 st0 then 0 else counter st0) /\
     last_reset_state st1 = reset_pin_value r0) /\
  exists st1,
    run rs st = Ok st1 /\
    display_digits st1 = display_digits st /\
    exists st2,
      loop_iteration r st1 = Ok st2 /\
      (ticked r st1 = false -> display_digits st2 = display_digits st) /\
      (ticked r st1 = true ->
       combine_threshold_and_counter
         (PyFloat (snd (get_pot_value (potentiometer_value r))))
         (PyInt (counter st2)) = Ok (display_digits st2)).
Proof.
  intros Hwf Hv Hvr Hq. split.
  - intros r0 st0.
    destruct (reset_button_spec r0 st0)
      as (R1 & R2 & _ & _ & R5 & R6 & R7 & R8 & R9 & R10 & R11 & R12 & R13
          & R14 & R15 & R16).
    cbv zeta. repeat split; assumption.
  - destruct (quiet_run_display rs st Hwf Hv Hq)
      as (st1 & Hrun & Hwf1 & Hd1 & _).
    exists st1. split; [assumption|]. split; [assumption|].
    destruct (loop_iteration_ok r st1 Hwf1 Hvr)
      as (st2 & Hit & _ & _ & _ & Hquiet & Htick).
    exists st2. split; [assumption|]. split; [|exact Htick].
    intros Hno. destruct (Hquiet Hno) as (_ & _ & Hd2). congruence.
Qed.

Lemma reset_leaves_display_stale_witness :
  exists st1,
    run press_between_ticks seven_shown = Ok st1 /\
    display_digits st1 = [1; 7; 0; 7] /\
    exists st2,
      loop_iteration next_tick st1 = Ok st2 /\
      (ticked next_tick st1 = true ->
       combine_threshold_and_counter
         (PyFloat (snd (get_pot_value 30000)))
         (PyInt (counter st2)) = Ok (display_digits st2)).
Proof.
  assert (Hwf : wf_state seven_shown).
  { unfold wf_state, is_digit, BLANK. cbn. repeat split; try lia.
    forall_each ltac:(right; lia). }
  assert (Hv : Forall valid press_between_ticks) by (forall_each raw_range).
  assert (Hvr : valid next_tick) by raw_range.
  assert (Hq : quiet_run press_between_ticks seven_shown)
    by (vm_compute; repeat split).
  destruct (reset_leaves_display_stale press_between_ticks next_tick
              seven_shown Hwf Hv Hvr Hq)
    as (_ & st1 & Hrun & Hd1 & st2 & Hit & _ & Htick).
  exists st1. split; [exact Hrun|]. split; [exact Hd1|].
  exists st2. split; [exact Hit|exact Htick].
Defined.

(** The stale display, computed: the counter shows 07, the button is
    pressed between two sensor ticks, the counter is 0 and the display
    still reads 07; the tick at 9.2 s brings it to 00. *)
Lemma stale_display_example :
  match run press_between_ticks seven_shown with
  | Ok st1 =>
      counter st1 = 0 /\ display_digits st1 = [1; 7; 0; 7] /\
      match loop_iteration next_tick st1 with
      | Ok st2 => counter st2 = 0 /\ display_digits st2 = [1; 7; 0; 0]
      | Raise _ => False
      end
  | Raise _ => False
  end.
Proof. vm_compute. repeat split. Qed.

(** A beep restarted inside the loop: a repetition at 1.0 s starts the
    beep, the object leaves at 1.12 s and comes back at 1.24 s, while the
    beep is still active; the second [start_beep] moves the start time to
    1.24 s, so the tone lasts beyond 1.3 s. *)
Lemma beep_restarted_in_loop :
  match run [ at_time 1.0%float true (Some 10.0%float) 30000;
              at_time 1.12%float true (Some 100.0%float) 30000 ] entry_state
  with
  | Ok st2 =>
      beep_active st2 = true /\ beep_start_time st2 = 1.0%float /\
      match loop_iteration
              (at_time 1.24%float true (Some 10.0%float) 30000) st2 with
      | Ok st3 =>
          beep_active st3 = true /\ beep_start_time st3 = 1.24%float /\
          counter st3 = 2
      | Raise _ => False
      end
  | Raise _ => False
  end.
Proof. vm_compute. repeat split. Qed.

(** ** The loop never raises *)

(** From a well-shaped state, any number of iterations on hardware
    readings runs without an exception and ends in a well-shaped state. *)
Lemma run_never_raises (rs : list readings) :
  forall st,
    wf_state st -> Forall valid rs ->
    exists st', run rs st = Ok st' /\ wf_state st'.
Proof.
  induction rs as [|r rest IH]; intros st Hwf Hv.
  - exists st. split; [reflexivity|assumption].
  - inversion Hv as [|? ? Hvr Hvrest]; subst.
    destruct (loop_iteration_ok r st Hwf Hvr) as (st1 & Hit & Hwf1 & _).
    destruct (IH st1 Hwf1 Hvrest) as (st' & Hrun & Hwf').
    exists st'. cbn [run]. rewrite Hit. cbn [bind].
    split; assumption.
Qed.

(** The same from power-up: the start-up code and then the loop. *)
Lemma program_never_raises (raw : Z) (rs : list readings) :
  raw_in_range raw -> Forall valid rs ->
  exists st st', initial_state raw = Ok st /\ run rs st = Ok st'.
Proof.
  intros Hraw Hv.
  destruct (initial_state_wf raw Hraw) as (st & Hinit & Hwf).
  destruct (run_never_raises rs st Hwf Hv) as (st' & Hrun & _).
  exists st, st'. split; assumption.
Qed.

(** * Further properties *)

(** ** The display multiplexer *)

Lemma seven_entries {A : Type} (l : list A) :
  length l = 7%nat -> exists a b c d e f g, l = [a; b; c; d; e; f; g].
Proof.
  intros Hl. do 8 (destruct l as [|? l]; try discriminate).
  do 7 eexists. reflexivity.
Qed.

(** The entry under the multiplexer position of a well-shaped state. *)
Lemma wf_entry (st : state) (d : Z) :
  wf_state st ->
  py_index (display_digits st) (current_digit st) = Ok d ->
  d = BLANK \/ is_digit d.
Proof.
  intros (_ & _ & Hdd & Hall & Hcd) Hidx.
  destruct (four_entries _ Hdd) as (w & x & y & z & Hdisp).
  rewrite Hdisp in Hall, Hidx.
  inversion Hall as [|? ? Hw Hall1]; subst.
  inversion Hall1 as [|? ? Hx Hall2]; subst.
  inversion Hall2 as [|? ? Hy Hall3]; subst.
  inversion Hall3 as [|? ? Hz _]; subst.
  assert (Hcases : current_digit st = 0 \/ current_digit st = 1 \/
                   current_digit st = 2 \/ current_digit st = 3) by lia.
  destruct Hcases as [E | [E | [E | E]]]; rewrite E in Hidx;
    cbn in Hidx; injection Hidx as <-; assumption.
Qed.

(** X1. One call of [refresh_display] on a well-shaped state: every pin is
    first released, then the segment pins take the pattern of the entry at
    the current position and the digit-select pin of that position alone
    goes high (nothing is driven for a blank entry); the position moves on
    by one modulo 4; no other global changes. The pins after the call do
    not depend on the pins before it. *)
Theorem refresh_display_pins (st : state) (d : Z) :
  wf_state st ->
  py_index (display_digits st) (current_digit st) = Ok d ->
  refresh_display st
    = Ok (set_current_digit ((current_digit st + 1) mod 4)
            (set_digits (lit_digits d (current_digit st))
               (set_segments (shown_segments d) st))).
Proof.
  intros Hwf Hidx.
  pose proof (wf_entry st d Hwf Hidx) as Hv.
  destruct Hwf as (Hd & Hs & Hdd & Hall & Hcd).
  destruct (four_entries _ Hd) as (p0 & p1 & p2 & p3 & Hdigits).
  destruct (seven_entries _ Hs) as (s0 & s1 & s2 & s3 & s4 & s5 & s6 & Hsegs).
  unfold refresh_display.
  cbn [display_digits current_digit set_segments set_digits digits segments].
  rewrite Hidx. cbn [bind]. rewrite Hdigits, Hsegs. cbn [map].
  destruct Hv as [-> | Hdig].
  - cbn [Z.eqb BLANK negb bind Pos.eqb].
    unfold lit_digits, shown_segments. cbn.
    destruct st; reflexivity.
  - assert (Hnb : (d =? -1) = false)
      by (unfold is_digit in Hdig; apply Z.eqb_neq; lia).
    rewrite Hnb. cbn [negb].
    destruct (digit_patterns_length d Hdig) as (p & Hp & Hlen).
    rewrite Hp. cbn [bind].
    rewrite drive_segments_full by (assumption || reflexivity).
    cbn [bind].
    unfold lit_digits, shown_segments, BLANK. rewrite Hnb, Hp.
    assert (Hcases : current_digit st = 0 \/ current_digit st = 1 \/
                     current_digit st = 2 \/ current_digit st = 3) by lia.
    destruct st as [f1 f2 f3 f4 f5 f6 f7 f8 f9 cd f11 f12 f13 f14 f15].
    cbn [current_digit] in *.
    destruct Hcases as [-> | [-> | [-> | ->]]]; reflexivity.
Qed.

Lemma wf_entry_state : wf_state entry_state.
Proof.
  unfold wf_state, is_digit, BLANK. cbn. repeat split; try lia.
  forall_each ltac:(right; lia).
Qed.

Lemma refresh_display_pins_witness :
  exists st',
    refresh_display entry_state = Ok st' /\
    digits st' = [true; false; false; false] /\
    segments st' = [true; false; false; true; true; true; true] /\
    current_digit st' = 1.
Proof.
  eexists. split.
  - exact (refresh_display_pins entry_state 1 wf_entry_state eq_refl).
  - repeat split.
Defined.

Lemma digit_patterns_missing (d : Z) :
  ~ is_digit d -> digit_patterns d = Raise KeyError.
Proof.
  unfold is_digit. intros Hd.
  destruct d as [|p|p]; [lia| |reflexivity].
  do 4 (destruct p as [p|p|]; try reflexivity; try lia).
Qed.

(** X2. [refresh_display] raises [KeyError] when the entry at the current
    position is neither the blank sentinel -1 nor a digit 0 to 9: the
    pattern table has no such key. *)
Theorem refresh_display_key_error (st : state) (d : Z) :
  py_index (display_digits st) (current_digit st) = Ok d ->
  d <> BLANK -> ~ is_digit d ->
  refresh_display st = Raise KeyError.
Proof.
  intros Hidx Hnb Hnd. unfold refresh_display.
  cbn [display_digits current_digit set_segments set_digits digits segments].
  rewrite Hidx. cbn [bind].
  assert (Hne : (d =? -1) = false) by (apply Z.eqb_neq; exact Hnb).
  rewrite Hne. cbn [negb].
  rewrite (digit_patterns_missing d Hnd). reflexivity.
Qed.

Lemma refresh_display_key_error_witness :
  refresh_display bad_entry = Raise KeyError.
Proof.
  apply (refresh_display_key_error bad_entry 10).
  - reflexivity.
  - unfold BLANK. lia.
  - unfold is_digit. lia.
Defined.

(** X3. [refresh_display] raises [IndexError] when the current position is
    not an index of [display_digits], that is below minus its length or at
    least its length. *)
Theorem refresh_display_index_error (st : state) :
  let n := Z.of_nat (length (display_digits st)) in
  current_digit st < - n \/ n <= current_digit st ->
  refresh_display st = Raise IndexError.
Proof.
  intros n Hout. unfold refresh_display, py_index.
  cbn [display_digits current_digit set_segments set_digits digits segments].
  fold n.
  destruct (Z.ltb_spec (current_digit st) 0) as [Hneg|Hpos].
  - destruct Hout as [Hout|Hout]; [|lia].
    assert (Hlt : (current_digit st + n <? 0) = true) by (apply Z.ltb_lt; lia).
    rewrite Hlt. reflexivity.
  - destruct Hout as [Hout|Hout]; [lia|].
    assert (Hge : (n <=? current_digit st) = true) by (apply Z.leb_le; lia).
    rewrite Hge, orb_true_r. reflexivity.
Qed.

Lemma refresh_display_index_error_witness :
  refresh_display bad_position = Raise IndexError.
Proof.
  apply (refresh_display_index_error bad_position). cbn. lia.
Defined.

(** Calls of [refresh_display] in a row keep the shape and move the
    position by their number. *)
Lemma refresh_times_position (n : nat) :
  forall st,
    wf_state st ->
    exists st',
      refresh_times n st = Ok st' /\ wf_state st' /\
      current_digit st' = (current_digit st + Z.of_nat n) mod 4 /\
      untouched st st' /\ beep_view st' = beep_view st /\
      last_display_time st' = last_display_time st.
Proof.
  induction n as [|n IH]; intros st Hwf.
  - exists st. split; [reflexivity|]. split; [assumption|].
    split.
    { destruct Hwf as (_ & _ & _ & _ & Hcd).
      rewrite Z.add_0_r, Z.mod_small by lia. reflexivity. }
    repeat split.
  - destruct (refresh_display_ok st Hwf) as (ds & ss & Href & Hds & Hss).
    set (st1 := set_current_digit ((current_digit st + 1) mod 4)
                  (set_digits ds (set_segments ss st))) in *.
    assert (Hwf1 : wf_state st1).
    { destruct Hwf as (_ & _ & Hdd & Hall & Hcd).
      unfold wf_state, st1. cbn.
      repeat split; try assumption;
        pose proof (Z.mod_pos_bound (current_digit st + 1) 4 ltac:(lia)); lia. }
    destruct (IH st1 Hwf1) as (st' & Hrun & Hwf' & Hcd' & Hun & Hbv & Hldt).
    exists st'. cbn [refresh_times]. rewrite Href. cbn [bind].
    split; [assumption|]. split; [assumption|].
    split.
    { rewrite Hcd'. unfold st1. cbn [current_digit set_current_digit].
      rewrite Nat2Z.inj_succ, Zplus_mod_idemp_l. f_equal. lia. }
    split; [|split; assumption].
    destruct Hun as (U1 & U2 & U3 & U4 & U5 & U6 & U7).
    repeat split; assumption.
Qed.

(** X4. The multiplexer goes round: on a well-shaped state any number of
    calls of [refresh_display] succeeds, [n] calls move the position by [n]
    modulo 4, so four calls visit each of the four positions once and come
    back to the one they started from; the calls change only the pins and
    the position. *)
Theorem refresh_display_cycle (st : state) (n : nat) :
  wf_state st ->
  exists st',
    refresh_times n st = Ok st' /\
    current_digit st' = (current_digit st + Z.of_nat n) mod 4 /\
    (exists st4,
       refresh_times 4 st = Ok st4 /\ current_digit st4 = current_digit st) /\
    display_digits st' = display_digits st /\
    counter st' = counter st /\
    object_inside st' = object_inside st /\
    beep_view st' = beep_view st /\
    last_display_time st' = last_display_time st.
Proof.
  intros Hwf.
  destruct (refresh_times_position n st Hwf)
    as (st' & Hrun & _ & Hcd & Hun & Hbv & Hldt).
  destruct (refresh_times_position 4 st Hwf) as (st4 & Hrun4 & _ & Hcd4 & _).
  destruct Hun as (U1 & U2 & U3 & _).
  exists st'. split; [assumption|]. split; [assumption|].
  split.
  { exists st4. split; [assumption|]. rewrite Hcd4.
    destruct Hwf as (_ & _ & _ & _ & Hr).
    change (Z.of_nat 4) with (1 * 4).
    rewrite Z.mod_add, Z.mod_small by lia. reflexivity. }
  repeat split; assumption.
Qed.

Lemma refresh_display_cycle_witness :
  exists st',
    refresh_times 6 entry_state = Ok st' /\ current_digit st' = 2.
Proof.
  destruct (refresh_display_cycle entry_state 6 wf_entry_state)
    as (st' & Hrun & Hcd & _).
  exists st'. split; [exact Hrun|exact Hcd].
Defined.

Lemma digit_patterns_key (d : Z) (p : list bool) :
  digit_patterns d = Ok p -> is_digit d.
Proof.
  intros Hp.
  destruct (Z_le_dec 0 d) as [H0|H0];
    [destruct (Z_le_dec d 9) as [H9|H9]; [split; assumption|]|];
    rewrite digit_patterns_missing in Hp
      by (unfold is_digit; lia); discriminate.
Qed.

(** X5. The pattern table is unambiguous: two keys with the same segment
    pattern are the same digit, every pattern drives all seven segments,
    and no digit has the pattern of a dark display (all pins high). *)
Theorem digit_patterns_distinct (d1 d2 : Z) (p : list bool) :
  digit_patterns d1 = Ok p -> digit_patterns d2 = Ok p ->
  d1 = d2 /\ length p = 7%nat /\ p <> ALL_OFF.
Proof.
  intros H1 H2.
  pose proof (digit_patterns_key d1 p H1) as K1.
  pose proof (digit_patterns_key d2 p H2) as K2.
  unfold is_digit in K1, K2.
  assert (C1 : d1 = 0 \/ d1 = 1 \/ d1 = 2 \/ d1 = 3 \/ d1 = 4 \/ d1 = 5 \/
               d1 = 6 \/ d1 = 7 \/ d1 = 8 \/ d1 = 9) by lia.
  assert (C2 : d2 = 0 \/ d2 = 1 \/ d2 = 2 \/ d2 = 3 \/ d2 = 4 \/ d2 = 5 \/
               d2 = 6 \/ d2 = 7 \/ d2 = 8 \/ d2 = 9) by lia.
  clear K1 K2.
  repeat (destruct C1 as [->|C1]); try subst d1;
    cbn in H1; injection H1 as <-;
    (split; [|split; [reflexivity|discriminate]]);
    repeat (destruct C2 as [->|C2]); try subst d2;
    cbn in H2; (reflexivity || discriminate).
Qed.

Lemma digit_patterns_distinct_witness :
  3 = 3 /\ length [false; false; false; false; true; true; false] = 7%nat.
Proof.
  destruct (digit_patterns_distinct 3 3
              [false; false; false; false; true; true; false]
              eq_refl eq_refl) as (E & L & _).
  split; [exact E|exact L].
Defined.

Lemma update_display_digits_entries (v : Z) :
  length (update_display_digits v) = 4%nat /\
  Forall (fun d => d = BLANK \/ is_digit d) (update_display_digits v).
Proof.
  rewrite update_display_digits_cases. cbv zeta.
  split; [reflexivity|].
  forall_each ltac:(
    cbv beta;
    try match goal with
      | |- context [?a <? ?b] => destruct (a <? b); [left; reflexivity|]
      end;
    right; apply decimal_digit_range).
Qed.

(** X6. What the digit encoder returns can always be multiplexed: with
    [display_digits] set to [update_display_digits v], for any integer [v],
    any number of calls of [refresh_display] succeeds (a blank entry is
    skipped, every other entry is a key of the pattern table). *)
Theorem update_display_digits_displayable (v : Z) (n : nat) (st : state) :
  wf_state st ->
  exists st',
    refresh_times n (set_display_digits (update_display_digits v) st) = Ok st' /\
    display_digits st' = update_display_digits v.
Proof.
  intros (Hd & Hs & _ & _ & Hcd).
  destruct (update_display_digits_entries v) as (Hlen & Hall).
  assert (Hwf : wf_state (set_display_digits (update_display_digits v) st)).
  { unfold wf_state. cbn. repeat split; assumption || lia. }
  destruct (refresh_times_position n _ Hwf) as (st' & Hrun & _ & _ & Hun & _).
  destruct Hun as (_ & _ & U3 & _).
  exists st'. split; [exact Hrun|exact U3].
Qed.

Lemma update_display_digits_displayable_witness :
  exists st',
    refresh_times 4 (set_display_digits (update_display_digits 7) entry_state)
      = Ok st' /\
    display_digits st' = [BLANK; BLANK; BLANK; 7].
Proof.
  destruct (update_display_digits_displayable 7 4 entry_state wf_entry_state)
    as (st' & Hrun & Hd).
  exists st'. split; [exact Hrun|exact Hd].
Defined.

(** ** The packer on a float threshold *)

(** An infinite float is not a zero (from the specification of the
    primitive comparison and absolute value). *)
Lemma infinite_not_zero (f : float) :
  PrimFloat.is_infinity f = true -> PrimFloat.is_zero f = false.
Proof.
  unfold PrimFloat.is_infinity, PrimFloat.is_zero.
  rewrite !FloatAxioms.eqb_spec, FloatAxioms.abs_spec.
  change (Prim2SF infinity) with (S754_infinity false).
  change (Prim2SF zero) with (S754_zero false).
  destruct (Prim2SF f) as [s|s| |s m e]; cbn; intros H;
    try discriminate; try reflexivity.
  destruct s; reflexivity.
Qed.

(** [int] of a float raises exactly on NaN and on the infinities. *)
Lemma py_int_float_cases (f : float) :
  (PrimFloat.is_nan f = true -> py_int (PyFloat f) = Raise ValueError) /\
  (PrimFloat.is_nan f = false -> PrimFloat.is_infinity f = true ->
   py_int (PyFloat f) = Raise OverflowError) /\
  (PrimFloat.is_nan f = false -> PrimFloat.is_infinity f = false ->
   exists t, py_int (PyFloat f) = Ok t).
Proof.
  pose proof (infinite_not_zero f) as Hiz.
  unfold py_int, Prim2SF.
  destruct (PrimFloat.is_nan f), (PrimFloat.is_zero f),
    (PrimFloat.is_infinity f);
    (split; [|split]); intros; try discriminate; try reflexivity;
    try (eexists; reflexivity);
    try (specialize (Hiz eq_refl); discriminate).
  destruct (Z.frexp f) as [r e].
  destruct (shr_fexp prec emax (Uint63.to_Z (normfr_mantissa r)) (e - prec)
              loc_Exact) as [shr e'].
  destruct (shr_m shr); eexists; reflexivity.
Qed.

(** X7. [combine_threshold_and_counter] with a float threshold and an
    integer counter: a NaN threshold raises [ValueError], an infinite one
    [OverflowError], and every other threshold gives four digits between 0
    and 9 whose second pair reads back as the counter clamped to [0, 99]. *)
Theorem combine_threshold_float_cases (f : float) (c : Z) :
  (PrimFloat.is_nan f = true ->
   combine_threshold_and_counter (PyFloat f) (PyInt c) = Raise ValueError) /\
  (PrimFloat.is_nan f = false -> PrimFloat.is_infinity f = true ->
   combine_threshold_and_counter (PyFloat f) (PyInt c) = Raise OverflowError) /\
  (PrimFloat.is_nan f = false -> PrimFloat.is_infinity f = false ->
   exists t_tens t_ones c_tens c_ones,
     combine_threshold_and_counter (PyFloat f) (PyInt c)
       = Ok [t_tens; t_ones; c_tens; c_ones] /\
     Forall is_digit [t_tens; t_ones; c_tens; c_ones] /\
     10 * c_tens + c_ones = clamp 0 99 c).
Proof.
  destruct (py_int_float_cases f) as (Hnan & Hinf & Hfin).
  unfold combine_threshold_and_counter.
  split; [|split].
  - intros H. rewrite (Hnan H). reflexivity.
  - intros H1 H2. rewrite (Hinf H1 H2). reflexivity.
  - intros H1 H2. destruct (Hfin H1 H2) as (t & Ht). rewrite Ht.
    cbn [bind py_int].
    destruct (pack_digits_spec t c) as (a & b & d & e & Hp & Hd & _ & Hc).
    exists a, b, d, e. rewrite Hp. repeat split; assumption.
Qed.

(** The three cases on concrete thresholds. *)
Lemma combine_threshold_float_examples :
  combine_threshold_and_counter (PyFloat nan) (PyInt 5) = Raise ValueError /\
  combine_threshold_and_counter (PyFloat infinity) (PyInt 5)
    = Raise OverflowError /\
  combine_threshold_and_counter (PyFloat (-3.7)%float) (PyInt 5)
    = Ok [0; 0; 0; 5] /\
  combine_threshold_and_counter (PyFloat 123.9%float) (PyInt 105)
    = Ok [9; 9; 9; 9].
Proof. repeat split; vm_compute; reflexivity. Qed.

(** ** One iteration, global by global *)

(** What a successful sensor tick does to the beep, the potentiometer gate,
    the console and the multiplexer. *)
Lemma sensor_tick_full (r : readings) (st : state) :
  successful r ->
  exists st',
    sensor_tick r st = Ok st' /\
    beep_view st' =
      (if detected r && negb (object_inside st)
       then (true, start_clock r, 4000, 32768) else beep_view st) /\
    last_pot_value st' =
      (if pot_changed r st then potentiometer_value r
       else last_pot_value st) /\
    console st' =
      (if detected r && negb (object_inside st)
       then [RepDetected (counter st + 1)] else []) ++
      (if pot_changed r st
       then [ThresholdLine (snd (get_pot_value (potentiometer_value r)))]
       else []) ++ console st /\
    mux_view st' = mux_view st.
Proof.
  intros Hs. destruct (successful_detected r Hs) as (d & Hd & Hdet).
  destruct Hs as [_ Hraw].
  rewrite Hdet. unfold detected_at, pot_changed.
  unfold sensor_tick, sensor_guarded, sensor_try, sonar_read.
  rewrite Hd. cbn [bind].
  pose proof (fun c => combine_threshold_ok (potentiometer_value r) c Hraw)
    as Hcomb.
  pose proof (get_pot_value_pair (potentiometer_value r)) as Hpair.
  remember (snd (get_pot_value (potentiometer_value r))) as th eqn:Hth in *.
  rewrite Hpair. clear Hpair.
  remember (d <=? th * 2.54)%float as det eqn:Hdet' in *.
  clear Hth Hdet' Hdet.
  unfold start_beep, beep_view, mux_view.
  destruct (pot_tolerance <? Z.abs (potentiometer_value r - last_pot_value st));
    cbn [object_inside set_last_pot_value print];
    destruct det; destruct (object_inside st) eqn:Hin;
    cbn [andb negb]; cbn [counter set_object_inside set_beep_active
      set_beep_start_time set_buzzer_duty_cycle set_buzzer_frequency print
      set_counter set_last_pot_value];
    match goal with
    | |- context [combine_threshold_and_counter _ (PyInt ?c)] =>
        destruct (Hcomb c) as (t & ct & co & _ & _ & Hc & _)
    end;
    rewrite Hc; cbn [bind];
    eexists; (split; [reflexivity|]);
    cbn; repeat split.
Qed.

(** The two descriptions of a successful tick are about the same state. *)
Lemma sensor_tick_effects (r : readings) (st : state) :
  successful r ->
  exists st',
    sensor_tick r st = Ok st' /\
    object_inside st' = detected r /\
    counter st' =
      counter st + (if detected r && negb (object_inside st) then 1 else 0) /\
    combine_threshold_and_counter
      (PyFloat (snd (get_pot_value (potentiometer_value r))))
      (PyInt (counter st')) = Ok (display_digits st') /\
    last_reset_state st' = last_reset_state st /\
    last_sensor_time st' = now r /\
    beep_view st' =
      (if detected r && negb (object_inside st)
       then (true, start_clock r, 4000, 32768) else beep_view st) /\
    last_pot_value st' =
      (if pot_changed r st then potentiometer_value r
       else last_pot_value st) /\
    console st' =
      (if detected r && negb (object_inside st)
       then [RepDetected (counter st + 1)] else []) ++
      (if pot_changed r st
       then [ThresholdLine (snd (get_pot_value (potentiometer_value r)))]
       else []) ++ console st /\
    mux_view st' = mux_view st.
Proof.
  intros Hs.
  destruct (sensor_tick_success r st Hs)
    as (st1 & Ht1 & A1 & A2 & _ & _ & A5 & _ & _ & _ & A9 & A10).
  destruct (sensor_tick_full r st Hs) as (st2 & Ht2 & B1 & B2 & B3 & B4).
  rewrite Ht1 in Ht2. injection Ht2 as <-.
  exists st1. repeat (split; [assumption|]). assumption.
Qed.

Lemma beep_update_views (r : readings) (st : state) :
  mux_view (beep_update r st) = mux_view st /\
  beep_view (beep_update r st) =
    (if beep_expired r st
     then (false, beep_start_time st, buzzer_frequency st, 0)
     else beep_view st).
Proof.
  unfold beep_update, beep_expired, beep_view, mux_view.
  destruct (beep_active st) eqn:Ha;
    [destruct (beep_duration <=? beep_clock r - beep_start_time st)%float|];
    cbn; rewrite ?Ha; split; reflexivity.
Qed.

Lemma display_update_views (r : readings) (st : state) :
  wf_state st ->
  exists st',
    display_update r st = Ok st' /\ wf_state st' /\ untouched st st' /\
    beep_view st' = beep_view st /\
    current_digit st' =
      (if display_due r st then (current_digit st + 1) mod 4
       else current_digit st) /\
    last_display_time st' =
      (if display_due r st then now r else last_display_time st).
Proof.
  intros Hwf.
  destruct (display_update_ok r st Hwf) as (st' & Hdu & Hwf' & Hun).
  exists st'. split; [assumption|]. split; [assumption|].
  split; [assumption|].
  revert Hdu. unfold display_update, display_due.
  destruct (DISPLAY_INTERVAL <=? now r - last_display_time st)%float.
  - destruct (refresh_display_ok st Hwf) as (ds & ss & Href & _).
    rewrite Href. cbn [bind]. intros Heq. injection Heq as <-.
    repeat split.
  - intros Heq. injection Heq as <-. repeat split.
Qed.

Lemma sensor_poll_effects (r : readings) (st : state) :
  wf_state st -> valid r ->
  exists st',
    sensor_poll r st = Ok st' /\
    mux_view st' = mux_view st /\
    last_reset_state st' = last_reset_state st /\
    counter st' = counter st + (if entry_tick r st then 1 else 0) /\
    object_inside st' =
      (if ticked r st then detected r else object_inside st) /\
    beep_view st' =
      (if entry_tick r st then (true, start_clock r, 4000, 32768)
       else beep_view st) /\
    last_sensor_time st' =
      (if sensor_due r st then now r else last_sensor_time st) /\
    last_pot_value st' =
      (if ticked r st && pot_changed r st then potentiometer_value r
       else last_pot_value st) /\
    console st' =
      (if entry_tick r st then [RepDetected (counter st + 1)] else []) ++
      (if ticked r st && pot_changed r st
       then [ThresholdLine (snd (get_pot_value (potentiometer_value r)))]
       else []) ++ console st.
Proof.
  intros Hwf Hv. unfold sensor_poll, entry_tick, ticked, sensor_due.
  destruct (SENSOR_INTERVAL <=? now r - last_sensor_time st)%float;
    cbn [andb].
  - destruct (sonar_distance r) as [d|] eqn:Hd.
    + assert (Hs : successful r) by (split; [congruence|exact Hv]).
      destruct (sensor_tick_effects r st Hs)
        as (st' & Ht & E1 & E2 & _ & E4 & E5 & E6 & E7 & E8 & E9).
      exists st'. cbn [andb].
      repeat (split; [assumption|]). assumption.
    + rewrite (sensor_tick_failure r st Hd). eexists.
      split; [reflexivity|]. cbn. repeat split. lia.
  - exists st. split; [reflexivity|]. cbn. repeat split. lia.
Qed.

Lemma mux_view_eq (st st' : state) :
  mux_view st' = mux_view st ->
  digits st' = digits st /\ segments st' = segments st /\
  current_digit st' = current_digit st /\
  last_display_time st' = last_display_time st.
Proof.
  unfold mux_view. intros H. inversion H. repeat split; reflexivity.
Qed.

(** One iteration from a well-shaped state on hardware readings, written
    out for every global but the pins and the display digits. All tests
    are on the state at the start of the iteration. *)
Lemma loop_iteration_effects (r : readings) (st : state) :
  wf_state st -> valid r ->
  exists st',
    loop_iteration r st = Ok st' /\
    counter st' =
      (if press_edge r st then 0 else counter st)
      + (if entry_tick r st then 1 else 0) /\
    object_inside st' =
      (if ticked r st then detected r else object_inside st) /\
    beep_view st' =
      (if entry_tick r st then (true, start_clock r, 4000, 32768)
       else if beep_expired r st
            then (false, beep_start_time st, buzzer_frequency st, 0)
            else beep_view st) /\
    current_digit st' =
      (if display_due r st then (current_digit st + 1) mod 4
       else current_digit st) /\
    last_display_time st' =
      (if display_due r st then now r else last_display_time st) /\
    last_sensor_time st' =
      (if sensor_due r st then now r else last_sensor_time st) /\
    last_reset_state st' = reset_pin_value r /\
    last_pot_value st' =
      (if ticked r st && pot_changed r st then potentiometer_value r
       else last_pot_value st) /\
    console st' =
      (if entry_tick r st
       then [RepDetected ((if press_edge r st then 0 else counter st) + 1)]
       else []) ++
      (if ticked r st && pot_changed r st
       then [ThresholdLine (snd (get_pot_value (potentiometer_value r)))]
       else []) ++
      (if press_edge r st then [CounterReset] else []) ++ console st.
Proof.
  intros Hwf Hv. unfold loop_iteration.
  destruct (beep_update_frame r st) as (Hub & Hwfb).
  destruct (beep_update_views r st) as (Bm & Bb).
  destruct (display_update_views r (beep_update r st) (Hwfb Hwf))
    as (st2 & Hdu & Hwf2 & Hud & Db & Dc & Dt).
  rewrite Hdu. cbn [bind].
  destruct Hub as (B1 & B2 & B3 & B4 & B5 & B6 & B7).
  destruct Hud as (U1 & U2 & U3 & U4 & U5 & U6 & U7).
  destruct (reset_button_spec r st2)
    as (R1 & R2 & _ & R4 & R5 & _ & R7 & R8 & R9 & R10 & R11 & R12 & R13
        & R14 & R15 & R16).
  set (st3 := reset_button r st2) in *.
  destruct (sensor_poll_effects r st3 (reset_button_wf r st2 Hwf2) Hv)
    as (st' & Hp & Pm & P1 & P2 & P3 & P4 & P5 & P6 & P7).
  exists st'. split; [assumption|].
  assert (Hedge : press_edge r st2 = press_edge r st)
    by (unfold press_edge; rewrite U4, B4; reflexivity).
  assert (Htick : ticked r st3 = ticked r st)
    by (unfold ticked; rewrite R16, U5, B5; reflexivity).
  assert (Hentry : entry_tick r st3 = entry_tick r st)
    by (unfold entry_tick; rewrite Htick, R5, U2, B2; reflexivity).
  assert (Hdue : sensor_due r st3 = sensor_due r st)
    by (unfold sensor_due; rewrite R16, U5, B5; reflexivity).
  assert (Hpot : pot_changed r st3 = pot_changed r st)
    by (unfold pot_changed; rewrite R10, U6, B6; reflexivity).
  destruct (mux_view_eq _ _ Bm) as (_ & _ & Hcd & Hldt).
  assert (Hdd : display_due r (beep_update r st) = display_due r st)
    by (unfold display_due; rewrite Hldt; reflexivity).
  assert (Hb3 : beep_view st3 = beep_view st2)
    by (unfold beep_view; rewrite R11, R12, R13, R14; reflexivity).
  rewrite Hentry, Htick, Hpot in *. rewrite Hdue in P5.
  rewrite Hedge in R2, R4. rewrite Hdd, Hcd in Dc. rewrite Hdd, Hldt in Dt.
  destruct (mux_view_eq _ _ Pm) as (_ & _ & Pcd & Pldt).
  split; [rewrite P2, R2, U1, B1; reflexivity|].
  split; [rewrite P3, R5, U2, B2; reflexivity|].
  split.
  { rewrite P4, Hb3, Db, Bb. reflexivity. }
  split; [rewrite Pcd, R9, Dc; reflexivity|].
  split; [rewrite Pldt, R15, Dt; reflexivity|].
  split; [rewrite P5, R16, U5, B5; reflexivity|].
  split; [rewrite P1, R1; reflexivity|].
  split; [rewrite P6, R10, U6, B6; reflexivity|].
  rewrite P7, R2, R4, U1, U7, B1, B7.
  destruct (press_edge r st); reflexivity.
Qed.

(** X8. One iteration applies the reset before the sensor read: the counter
    after it is 0 on a press edge and the old counter otherwise, plus 1 when
    the iteration performs a successful tick that detects while the state is
    Outside. So a press and a repetition in the same iteration leave 1, and
    without a press edge the counter never goes down. The detection state
    becomes the outcome of the comparison on a successful tick and is kept
    otherwise. *)
Theorem loop_iteration_counts (r : readings) (st : state) :
  wf_state st -> valid r ->
  exists st',
    loop_iteration r st = Ok st' /\
    counter st' =
      (if press_edge r st then 0 else counter st)
      + (if entry_tick r st then 1 else 0) /\
    (press_edge r st = false -> counter st <= counter st') /\
    object_inside st' =
      (if ticked r st then detected r else object_inside st).
Proof.
  intros Hwf Hv.
  destruct (loop_iteration_effects r st Hwf Hv) as (st' & Hit & Hc & Hi & _).
  exists st'. split; [assumption|]. split; [assumption|].
  split; [|assumption].
  intros He. rewrite Hc, He. destruct (entry_tick r st); lia.
Qed.

Lemma loop_iteration_counts_witness :
  exists st',
    loop_iteration first_hit (set_counter 7 entry_state) = Ok st' /\
    counter st' = 1 /\ object_inside st' = true.
Proof.
  assert (Hwf : wf_state (set_counter 7 entry_state)) by exact wf_entry_state.
  assert (Hv : valid first_hit) by raw_range.
  destruct (loop_iteration_counts first_hit (set_counter 7 entry_state) Hwf Hv)
    as (st' & Hit & Hc & _ & Hi).
  exists st'. split; [exact Hit|]. split; [exact Hc|exact Hi].
Defined.

(** X9. The beep over one iteration: an iteration that counts a repetition
    leaves the beep active, started at the time of the call, at 4000 Hz
    and duty 32768, also when the previous beep ran out in that iteration;
    otherwise an active beep whose 0.3 s have passed is silenced (inactive,
    duty 0, frequency and start time kept); otherwise the beep globals
    are unchanged. *)
Theorem loop_iteration_beep (r : readings) (st : state) :
  wf_state st -> valid r ->
  exists st',
    loop_iteration r st = Ok st' /\
    beep_view st' =
      (if entry_tick r st then (true, start_clock r, 4000, 32768)
       else if beep_expired r st
            then (false, beep_start_time st, buzzer_frequency st, 0)
            else beep_view st).
Proof.
  intros Hwf Hv.
  destruct (loop_iteration_effects r st Hwf Hv) as (st' & Hit & _ & _ & Hb & _).
  exists st'. split; assumption.
Qed.

Lemma loop_iteration_beep_witness :
  exists st',
    loop_iteration first_hit entry_state = Ok st' /\
    beep_view st' = (true, 1.0%float, 4000, 32768).
Proof.
  assert (Hv : valid first_hit) by raw_range.
  destruct (loop_iteration_beep first_hit entry_state wf_entry_state Hv)
    as (st' & Hit & Hb).
  exists st'. split; [exact Hit|exact Hb].
Defined.

(** X10. The two timers over one iteration: the multiplexer position moves
    on by one (modulo 4) and [last_display_time] becomes [now] exactly when
    at least [DISPLAY_INTERVAL] has passed since [last_display_time], and
    both are kept otherwise; [last_sensor_time] becomes [now] exactly when
    at least [SENSOR_INTERVAL] has passed, whether the measurement succeeds
    or fails. *)
Theorem loop_iteration_schedule (r : readings) (st : state) :
  wf_state st -> valid r ->
  exists st',
    loop_iteration r st = Ok st' /\
    current_digit st' =
      (if display_due r st then (current_digit st + 1) mod 4
       else current_digit st) /\
    last_display_time st' =
      (if display_due r st then now r else last_display_time st) /\
    last_sensor_time st' =
      (if sensor_due r st then now r else last_sensor_time st).
Proof.
  intros Hwf Hv.
  destruct (loop_iteration_effects r st Hwf Hv)
    as (st' & Hit & _ & _ & _ & Hcd & Hd & Hs & _).
  exists st'. repeat (split; [assumption|]). assumption.
Qed.

Lemma loop_iteration_schedule_witness :
  exists st',
    loop_iteration lost_echo entry_state = Ok st' /\
    current_digit st' = 1 /\ last_sensor_time st' = 1.0%float.
Proof.
  assert (Hv : valid lost_echo) by raw_range.
  destruct (loop_iteration_schedule lost_echo entry_state wf_entry_state Hv)
    as (st' & Hit & Hcd & _ & Hs).
  exists st'. split; [exact Hit|]. split; [exact Hcd|exact Hs].
Defined.

(** X11. The lines one iteration prints, oldest first: "Counter Reset" on a
    press edge; the threshold line when a successful tick reads a raw value
    more than [pot_tolerance] away from the last reported one, which is the
    only case where [last_pot_value] changes (to that raw value); "Rep #n"
    when the iteration counts a repetition, with n the counter after it. *)
Theorem loop_iteration_console (r : readings) (st : state) :
  wf_state st -> valid r ->
  exists st',
    loop_iteration r st = Ok st' /\
    console st' =
      (if entry_tick r st then [RepDetected (counter st')] else []) ++
      (if ticked r st && pot_changed r st
       then [ThresholdLine (snd (get_pot_value (potentiometer_value r)))]
       else []) ++
      (if press_edge r st then [CounterReset] else []) ++ console st /\
    last_pot_value st' =
      (if ticked r st && pot_changed r st then potentiometer_value r
       else last_pot_value st).
Proof.
  intros Hwf Hv.
  destruct (loop_iteration_effects r st Hwf Hv)
    as (st' & Hit & Hc & _ & _ & _ & _ & _ & _ & Hp & Hcon).
  exists st'. split; [assumption|]. split; [|assumption].
  rewrite Hcon, Hc. destruct (entry_tick r st); [|reflexivity].
  reflexivity.
Qed.

Lemma loop_iteration_console_witness :
  exists st',
    loop_iteration first_hit (set_counter 7 entry_state) = Ok st' /\
    console st' =
      [RepDetected 1; ThresholdLine (snd (get_pot_value 30000));
       CounterReset; StartingCounter] /\
    last_pot_value st' = 30000.
Proof.
  assert (Hwf : wf_state (set_counter 7 entry_state)) by exact wf_entry_state.
  assert (Hv : valid first_hit) by raw_range.
  destruct (loop_iteration_console first_hit (set_counter 7 entry_state) Hwf Hv)
    as (st' & Hit & Hcon & Hp).
  exists st'. split; [exact Hit|]. split; [|exact Hp].
  rewrite Hcon.
  destruct (loop_iteration_effects first_hit (set_counter 7 entry_state) Hwf Hv)
    as (st2 & Hit2 & Hc2 & _).
  rewrite Hit in Hit2. injection Hit2 as <-.
  change (entry_tick first_hit (set_counter 7 entry_state)) with true.
  rewrite Hc2. reflexivity.
Defined.

(** ** What holds at the top of the loop, always *)

Lemma combine_threshold_digits (raw c : Z) (ds : list Z) :
  raw_in_range raw ->
  combine_threshold_and_counter (PyFloat (snd (get_pot_value raw))) (PyInt c)
    = Ok ds ->
  exists c_tens c_ones,
    ds = [shown_threshold raw / 10; shown_threshold raw mod 10;
          c_tens; c_ones] /\
    2 <= shown_threshold raw <= 36 /\
    Forall is_digit ds /\
    10 * c_tens + c_ones = clamp 0 99 c.
Proof.
  intros Hraw Hds.
  destruct (combine_threshold_ok raw c Hraw)
    as (t & ct & co & Ht & Hr & Hc & D1 & D2 & D3 & D4 & Hcc).
  rewrite Hc in Hds. injection Hds as <-.
  unfold shown_threshold. rewrite Ht.
  exists ct, co. split; [reflexivity|]. split; [assumption|].
  split; [forall_each assumption|assumption].
Qed.

Lemma reachable_wf (st : state) : reachable st -> wf_state st.
Proof.
  induction 1 as [raw st Hraw Hinit | r st st' Hreach IH Hv Hit].
  - destruct (initial_state_wf raw Hraw) as (st0 & H0 & Hwf).
    rewrite Hinit in H0. injection H0 as <-. exact Hwf.
  - destruct (loop_iteration_ok r st IH Hv) as (st1 & H1 & Hwf1 & _).
    rewrite Hit in H1. injection H1 as <-. exact Hwf1.
Qed.

(** The state on entry to the loop, global by global. *)
Lemma initial_state_fields (raw : Z) (st : state) :
  raw_in_range raw -> initial_state raw = Ok st ->
  display_digits st
    = [shown_threshold raw / 10; shown_threshold raw mod 10; 0; 0] /\
  2 <= shown_threshold raw <= 36 /\
  console st = [StartingCounter] /\
  counter st = 0 /\ object_inside st = false /\
  last_reset_state st = true /\ last_pot_value st = -1 /\
  beep_view st = (false, 0%float, 440, 0) /\
  mux_view st = ([false; false; false; false], ALL_OFF, 0, 0%float) /\
  last_sensor_time st = 0%float.
Proof.
  intros Hraw. unfold initial_state. rewrite get_pot_value_pair.
  destruct (combine_threshold_and_counter
              (PyFloat (snd (get_pot_value raw))) (PyInt (counter boot_state)))
    as [ds|e] eqn:Hc; [|discriminate].
  cbn [bind]. intros Heq. injection Heq as <-.
  destruct (combine_threshold_digits raw _ ds Hraw Hc)
    as (ct & co & Hds & Hr & _ & Hcc).
  change (clamp 0 99 (counter boot_state)) with 0 in Hcc.
  assert (Hct : is_digit ct /\ is_digit co).
  { destruct (combine_threshold_ok raw (counter boot_state) Hraw)
      as (t & ct' & co' & _ & _ & Hc' & _ & _ & D3 & D4 & _).
    rewrite Hc' in Hc. rewrite Hds in Hc. injection Hc as _ _ <- <-.
    split; assumption. }
  destruct Hct as [Dct Dco]. unfold is_digit in Dct, Dco.
  assert (ct = 0 /\ co = 0) as [-> ->] by lia.
  cbn. rewrite Hds. repeat split; try reflexivity; lia.
Qed.

Lemma beep_view_fields (st : state) (a : bool) (t : float) (f d : Z) :
  beep_view st = (a, t, f, d) ->
  beep_active st = a /\ beep_start_time st = t /\
  buzzer_frequency st = f /\ buzzer_duty_cycle st = d.
Proof. unfold beep_view. intros H. repeat split; congruence. Qed.

(** The invariant of the loop beyond the shape. *)
Lemma reachable_inv (st : state) :
  reachable st ->
  Forall is_digit (display_digits st) /\
  0 <= counter st /\
  buzzer_consistent st /\
  counter st = reps_since_reset (console st) /\
  (last_pot_value st = -1 \/ raw_in_range (last_pot_value st)).
Proof.
  induction 1 as [raw st Hraw Hinit | r st st' Hreach IH Hv Hit].
  - destruct (initial_state_fields raw st Hraw Hinit)
      as (Hd & Hr & Hcon & Hc & _ & _ & Hp & Hb & _).
    rewrite Hd, Hcon, Hc, Hp. unfold buzzer_consistent.
    destruct (beep_view_fields _ _ _ _ _ Hb) as (Ha & _ & _ & Hdc).
    split.
    { destruct (two_digits (shown_threshold raw) ltac:(lia)) as (T1 & T2 & _).
      forall_each ltac:(assumption || (unfold is_digit; lia)). }
    split; [lia|]. split; [right; split; assumption|].
    split; [reflexivity|left; reflexivity].
  - pose proof (reachable_wf st Hreach) as Hwf.
    destruct IH as (Id & Ic & Ib & Ir & Ip).
    destruct (loop_iteration_ok r st Hwf Hv)
      as (st1 & H1 & _ & _ & _ & Hquiet & Htick).
    rewrite Hit in H1. injection H1 as <-.
    destruct (loop_iteration_effects r st Hwf Hv)
      as (st2 & H2 & Ec & _ & Eb & _ & _ & _ & _ & Ep & Econ).
    rewrite Hit in H2. injection H2 as <-.
    split.
    { destruct (ticked r st) eqn:Ht.
      - destruct (combine_threshold_digits _ _ _ Hv (Htick eq_refl))
          as (_ & _ & _ & _ & Hall & _).
        exact Hall.
      - destruct (Hquiet eq_refl) as (_ & _ & Hsame). rewrite Hsame.
        exact Id. }
    split.
    { rewrite Ec. destruct (press_edge r st), (entry_tick r st); lia. }
    split.
    { unfold buzzer_consistent in *.
      destruct (entry_tick r st).
      - destruct (beep_view_fields _ _ _ _ _ Eb) as (Ha & _ & Hf & Hdc).
        left. repeat split; assumption.
      - destruct (beep_expired r st).
        + destruct (beep_view_fields _ _ _ _ _ Eb) as (Ha & _ & _ & Hdc).
          right. split; assumption.
        + destruct (beep_view_fields _ _ _ _ _ Eb) as (Ha & _ & Hf & Hdc).
          rewrite Ha, Hf, Hdc. exact Ib. }
    split.
    { rewrite Econ, Ec.
      destruct (press_edge r st), (entry_tick r st),
        (ticked r st && pot_changed r st);
        cbn [app reps_since_reset]; lia. }
    rewrite Ep. destruct (ticked r st && pot_changed r st);
      [right; exact Hv|exact Ip].
Qed.

Lemma reachable_run (rs : list readings) :
  forall st st',
    reachable st -> Forall valid rs -> run rs st = Ok st' -> reachable st'.
Proof.
  induction rs as [|r rest IH]; intros st st' Hreach Hv Hrun.
  - cbn in Hrun. injection Hrun as <-. exact Hreach.
  - inversion Hv as [|? ? Hvr Hvrest]; subst.
    cbn [run] in Hrun.
    destruct (loop_iteration r st) as [st1|e] eqn:Hit; [|discriminate].
    cbn [bind] in Hrun.
    exact (IH st1 st' (reach_iteration r st st1 Hreach Hvr Hit) Hvrest Hrun).
Qed.

Lemma after_one_rep_run : run one_rep entry_state = Ok after_one_rep.
Proof. vm_compute. reflexivity. Qed.

Lemma after_one_rep_reachable : reachable after_one_rep.
Proof.
  apply (reachable_run one_rep entry_state).
  - apply (reach_entry 30000); [raw_range|exact entry_state_initial].
  - forall_each raw_range.
  - exact after_one_rep_run.
Qed.

(** X12. In the running program the display never holds a blank: at the
    top of every iteration [display_digits] is four digits between 0 and 9,
    so every call of [refresh_display] drives a pattern and raises one
    digit-select pin. *)
Theorem display_never_blank (st : state) :
  reachable st ->
  length (display_digits st) = 4%nat /\
  Forall is_digit (display_digits st) /\
  Forall (fun d => d <> BLANK) (display_digits st).
Proof.
  intros Hreach.
  destruct (reachable_wf st Hreach) as (_ & _ & Hlen & _).
  destruct (reachable_inv st Hreach) as (Hall & _).
  split; [assumption|]. split; [assumption|].
  eapply Forall_impl; [|exact Hall].
  unfold is_digit, BLANK. intros d Hd. lia.
Qed.

Lemma display_never_blank_witness :
  Forall is_digit (display_digits after_one_rep).
Proof.
  destruct (display_never_blank after_one_rep after_one_rep_reachable)
    as (_ & Hall & _).
  exact Hall.
Defined.

(** X13. In the running program the buzzer sounds exactly while a beep is
    active: at the top of every iteration, [beep_active] true goes with
    duty cycle 32768 at 4000 Hz, and [beep_active] false with duty cycle
    0. *)
Theorem buzzer_sounds_iff_active (st : state) :
  reachable st ->
  (beep_active st = true ->
   buzzer_duty_cycle st = 32768 /\ buzzer_frequency st = 4000) /\
  (beep_active st = false -> buzzer_duty_cycle st = 0).
Proof.
  intros Hreach.
  destruct (reachable_inv st Hreach) as (_ & _ & Hb & _).
  destruct Hb as [(Ha & Hd & Hf) | (Ha & Hd)]; rewrite Ha; split;
    intros E; try discriminate; try split; assumption.
Qed.

Lemma buzzer_sounds_iff_active_witness :
  buzzer_duty_cycle after_one_rep = 0.
Proof.
  destruct (buzzer_sounds_iff_active after_one_rep after_one_rep_reachable)
    as (_ & Hoff).
  exact (Hoff eq_refl).
Defined.

(** X14. In the running program the counter is never negative and equals
    the number of "Rep" lines printed since the last "Counter Reset" line
    (since the start when there was no reset). *)
Theorem counter_is_reps_since_reset (st : state) :
  reachable st ->
  0 <= counter st /\ counter st = reps_since_reset (console st).
Proof.
  intros Hreach.
  destruct (reachable_inv st Hreach) as (_ & Hc & _ & Hr & _).
  split; assumption.
Qed.

Lemma counter_is_reps_since_reset_witness :
  counter after_one_rep = reps_since_reset (console after_one_rep).
Proof.
  destruct (counter_is_reps_since_reset after_one_rep after_one_rep_reachable)
    as (_ & Hr).
  exact Hr.
Defined.

(** X15. From power-up the program never stops on an exception: for every
    16-bit first reading of the potentiometer the start-up code reaches the
    loop, and any number of iterations on 16-bit readings, with any clock
    values, button samples and sensor outcomes (failures included), runs to
    the end. *)
Theorem program_runs_forever (raw : Z) (rs : list readings) :
  raw_in_range raw -> Forall valid rs ->
  exists st st',
    initial_state raw = Ok st /\ run rs st = Ok st' /\ reachable st'.
Proof.
  intros Hraw Hv.
  destruct (initial_state_wf raw Hraw) as (st & Hinit & Hwf).
  destruct (run_never_raises rs st Hwf Hv) as (st' & Hrun & _).
  exists st, st'. split; [assumption|]. split; [assumption|].
  apply (reachable_run rs st st'); try assumption.
  exact (reach_entry raw st Hraw Hinit).
Qed.

Lemma program_runs_forever_witness :
  exists st st',
    initial_state 30000 = Ok st /\ run five_pressed st = Ok st'.
Proof.
  assert (Hraw : raw_in_range 30000) by raw_range.
  assert (Hv : Forall valid five_pressed) by (forall_each raw_range).
  destruct (program_runs_forever 30000 five_pressed Hraw Hv)
    as (st & st' & Hinit & Hrun & _).
  exists st, st'. split; [exact Hinit|exact Hrun].
Defined.

(** X16. On entry to the loop the display reads the whole inches of the
    threshold and a count of 00, "Starting Counter" is the only line
    printed, and every other global has its start value: counter 0, state
    Outside, button not pressed, no beep (440 Hz, duty 0), position 0, all
    pins released, timers 0, no raw value reported yet. *)
Theorem initial_state_shows_threshold (raw : Z) :
  raw_in_range raw ->
  exists st,
    initial_state raw = Ok st /\
    display_digits st
      = [shown_threshold raw / 10; shown_threshold raw mod 10; 0; 0] /\
    2 <= shown_threshold raw <= 36 /\
    console st = [StartingCounter] /\
    counter st = 0 /\ object_inside st = false /\
    last_reset_state st = true /\ last_pot_value st = -1 /\
    beep_view st = (false, 0%float, 440, 0) /\
    mux_view st = ([false; false; false; false], ALL_OFF, 0, 0%float) /\
    last_sensor_time st = 0%float.
Proof.
  intros Hraw.
  destruct (initial_state_wf raw Hraw) as (st & Hinit & _).
  exists st. split; [assumption|].
  exact (initial_state_fields raw st Hraw Hinit).
Qed.

Lemma initial_state_shows_threshold_witness :
  exists st,
    initial_state 65535 = Ok st /\ display_digits st = [3; 6; 0; 0].
Proof.
  assert (Hraw : raw_in_range 65535) by raw_range.
  destruct (initial_state_shows_threshold 65535 Hraw) as (st & Hinit & Hd & _).
  exists st. split; [exact Hinit|].
  rewrite Hd. vm_compute. reflexivity.
Defined.

Lemma clamp_nonneg (c : Z) : 0 <= c -> clamp 0 99 c = Z.min c 99.
Proof.
  intros Hc. unfold clamp.
  destruct (Z.ltb_spec c 0); [lia|].
  destruct (Z.ltb_spec 99 c); lia.
Qed.

(** X17. After an iteration with a successful sensor tick the display is
    four digits: the tens and ones of the whole inches of the current
    threshold, then the tens and ones of the count saturated at 99, where
    the count is the counter after the iteration (0 on a press edge, else
    the old counter, plus 1 when a repetition is counted). The count is
    shown exactly up to 99, and from there on the display reads 99 while
    the counter goes on counting. *)
Theorem display_saturates_at_99 (r : readings) (st : state) :
  wf_state st -> valid r -> 0 <= counter st -> ticked r st = true ->
  exists st',
    loop_iteration r st = Ok st' /\
    counter st' =
      (if press_edge r st then 0 else counter st)
      + (if entry_tick r st then 1 else 0) /\
    display_digits st' =
      [shown_threshold (potentiometer_value r) / 10;
       shown_threshold (potentiometer_value r) mod 10;
       Z.min (counter st') 99 / 10;
       Z.min (counter st') 99 mod 10] /\
    Forall is_digit (display_digits st') /\
    (counter st' <= 99 ->
     10 * (Z.min (counter st') 99 / 10) + Z.min (counter st') 99 mod 10
       = counter st') /\
    (99 <= counter st' ->
     Z.min (counter st') 99 / 10 = 9 /\ Z.min (counter st') 99 mod 10 = 9).
Proof.
  intros Hwf Hv Hc Ht.
  destruct (loop_iteration_ok r st Hwf Hv)
    as (st' & Hit & _ & _ & _ & _ & Htick).
  destruct (loop_iteration_effects r st Hwf Hv) as (st2 & H2 & Ec & _).
  rewrite Hit in H2. injection H2 as <-.
  assert (Hc' : 0 <= counter st')
    by (rewrite Ec; destruct (press_edge r st), (entry_tick r st); lia).
  destruct (combine_threshold_digits _ _ _ Hv (Htick Ht))
    as (ct & co & Hds & _ & Hall & Hcc).
  rewrite (clamp_nonneg _ Hc') in Hcc.
  pose proof Hall as Hall'. rewrite Hds in Hall'.
  pose proof (Forall_inv (Forall_inv_tail (Forall_inv_tail Hall'))) as Dct.
  pose proof (Forall_inv (Forall_inv_tail (Forall_inv_tail
                (Forall_inv_tail Hall')))) as Dco.
  unfold is_digit in Dct, Dco.
  assert (Hct : ct = Z.min (counter st') 99 / 10)
    by (Z.div_mod_to_equations; lia).
  assert (Hco : co = Z.min (counter st') 99 mod 10)
    by (Z.div_mod_to_equations; lia).
  exists st'. split; [assumption|]. split; [assumption|].
  split; [rewrite Hds, Hct, Hco; reflexivity|].
  split; [assumption|].
  split; intros; Z.div_mod_to_equations; lia.
Qed.

Lemma display_saturates_at_99_witness :
  exists st',
    loop_iteration next_tick many_reps = Ok st' /\
    counter st' = 150 /\
    display_digits st' = [1; 7; 9; 9].
Proof.
  assert (Hwf : wf_state many_reps) by exact wf_entry_state.
  assert (Hv : valid next_tick) by raw_range.
  assert (Hc : 0 <= counter many_reps) by (cbn; lia).
  assert (Ht : ticked next_tick many_reps = true) by (vm_compute; reflexivity).
  destruct (display_saturates_at_99 next_tick many_reps Hwf Hv Hc Ht)
    as (st' & Hit & Hcnt & Hd & _).
  assert (E : counter st' = 150) by exact Hcnt.
  exists st'. split; [exact Hit|]. split; [exact E|].
  rewrite Hd, E. vm_compute. reflexivity.
Defined.

(** The saturated display, computed: 150 repetitions show as 99. *)
Lemma display_saturates_example :
  match loop_iteration next_tick many_reps with
  | Ok st' => counter st' = 150 /\ display_digits st' = [1; 7; 9; 9]
  | Raise _ => False
  end.
Proof. vm_compute. repeat split. Qed.

(** ** The change gate of the potentiometer *)

Lemma pot_quiet_iteration (r : readings) (st : state) :
  wf_state st -> valid r ->
  Z.abs (potentiometer_value r - last_pot_value st) <= pot_tolerance ->
  exists st',
    loop_iteration r st = Ok st' /\ wf_state st' /\
    last_pot_value st' = last_pot_value st /\
    thresholds_reported st' = thresholds_reported st.
Proof.
  intros Hwf Hv Hsmall.
  destruct (loop_iteration_ok r st Hwf Hv) as (st' & Hit & Hwf' & _).
  destruct (loop_iteration_effects r st Hwf Hv)
    as (st2 & H2 & _ & _ & _ & _ & _ & _ & _ & Ep & Econ).
  rewrite Hit in H2. injection H2 as <-.
  assert (Hgate : pot_changed r st = false)
    by (unfold pot_changed; apply Z.ltb_ge; exact Hsmall).
  rewrite Hgate, andb_false_r in Ep, Econ.
  exists st'. split; [assumption|]. split; [assumption|].
  split; [assumption|].
  unfold thresholds_reported. rewrite Econ.
  destruct (entry_tick r st), (press_edge r st); reflexivity.
Qed.

(** X18. The change gate: over any run of iterations in which every raw
    reading is within [pot_tolerance] (1000 counts) of the last reported
    value, no threshold line is printed and the last reported value stays,
    however often the readings change among themselves. *)
Theorem pot_gate_ignores_small_changes (rs : list readings) (st : state) :
  wf_state st -> Forall valid rs ->
  Forall (fun r =>
            Z.abs (potentiometer_value r - last_pot_value st) <= pot_tolerance)
         rs ->
  exists st',
    run rs st = Ok st' /\
    last_pot_value st' = last_pot_value st /\
    thresholds_reported st' = thresholds_reported st.
Proof.
  revert st. induction rs as [|r rest IH]; intros st Hwf Hv Hsmall.
  - exists st. repeat split.
  - inversion Hv as [|? ? Hvr Hvrest]; subst.
    inversion Hsmall as [|? ? Hr Hrest]; subst.
    destruct (pot_quiet_iteration r st Hwf Hvr Hr)
      as (st1 & Hit & Hwf1 & Hp1 & Ht1).
    rewrite <- Hp1 in Hrest.
    destruct (IH st1 Hwf1 Hvrest Hrest) as (st' & Hrun & Hp' & Ht').
    exists st'. cbn [run]. rewrite Hit. cbn [bind].
    split; [assumption|]. split; congruence.
Qed.

Lemma pot_gate_ignores_small_changes_witness :
  exists st',
    run small_turns entry_state = Ok st' /\
    last_pot_value st' = -1 /\
    thresholds_reported st' = 0.
Proof.
  assert (Hv : Forall valid small_turns) by (forall_each raw_range).
  assert (Hs : Forall (fun r =>
                         Z.abs (potentiometer_value r
                                - last_pot_value entry_state) <= pot_tolerance)
                      small_turns)
    by (forall_each ltac:(cbv beta; unfold pot_tolerance; cbn; lia)).
  destruct (pot_gate_ignores_small_changes small_turns entry_state
              wf_entry_state Hv Hs) as (st' & Hrun & Hp & Ht).
  exists st'. split; [exact Hrun|]. split; [exact Hp|exact Ht].
Defined.

(** ** The displayed threshold along the potentiometer *)

Lemma steps_from_spec (n : nat) :
  forall z prev,
    steps_from n z prev = true -> prev = shown_threshold (z - 1) ->
    forall x, z <= x < z + Z.of_nat n ->
    shown_threshold (x - 1) <= shown_threshold x <= shown_threshold (x - 1) + 1.
Proof.
  induction n as [|n IH]; intros z prev Hall Hprev x Hx.
  - cbn in Hx. lia.
  - cbn [steps_from] in Hall. cbv zeta in Hall.
    apply andb_true_iff in Hall as [Hz Hrest].
    apply andb_true_iff in Hz as [Hlo Hhi].
    destruct (Z.eq_dec x z) as [->|Hne].
    + rewrite <- Hprev. lia.
    + apply (IH (z + 1) (shown_threshold z)); try assumption; [|lia].
      f_equal. lia.
Qed.

(** Every step of the potentiometer, by evaluating all 65535. *)
Lemma steps_all :
  steps_from (Z.to_nat 65535) 1 (shown_threshold 0) = true.
Proof. vm_compute. reflexivity. Qed.

Lemma shown_threshold_step (x : Z) :
  1 <= x <= POT_MAX ->
  shown_threshold (x - 1) <= shown_threshold x <= shown_threshold (x - 1) + 1.
Proof.
  unfold POT_MAX. intros Hx.
  apply (steps_from_spec _ 1 (shown_threshold 0) steps_all); [reflexivity|].
  rewrite Z2Nat.id; lia.
Qed.

Lemma shown_threshold_climb (a : Z) (n : nat) :
  0 <= a -> a + Z.of_nat n <= POT_MAX ->
  shown_threshold a <= shown_threshold (a + Z.of_nat n)
    <= shown_threshold a + Z.of_nat n.
Proof.
  intros Ha. induction n as [|n IH]; intros Hb.
  - rewrite Z.add_0_r. lia.
  - rewrite Nat2Z.inj_succ in *.
    pose proof (shown_threshold_step (a + Z.succ (Z.of_nat n)) ltac:(lia))
      as Hstep.
    replace (a + Z.succ (Z.of_nat n) - 1) with (a + Z.of_nat n) in Hstep by lia.
    specialize (IH ltac:(lia)). lia.
Qed.

Lemma shown_threshold_ends :
  shown_threshold 0 = 2 /\ shown_threshold POT_MAX = 36.
Proof. split; vm_compute; reflexivity. Qed.

(** X19. Turning the potentiometer up never lowers the threshold shown:
    for 16-bit readings [a <= b] the whole inches shown for [a] are at most
    those shown for [b], and they differ by at most [b - a]; in particular
    two neighbouring readings show the same inches or inches one apart. *)
Theorem shown_threshold_monotone (a b : Z) :
  raw_in_range a -> raw_in_range b -> a <= b ->
  shown_threshold a <= shown_threshold b <= shown_threshold a + (b - a).
Proof.
  intros [Ha _] [_ Hb] Hab.
  pose proof (shown_threshold_climb a (Z.to_nat (b - a)) Ha) as H.
  rewrite Z2Nat.id in H by lia.
  replace (a + (b - a)) with b in H by lia.
  exact (H Hb).
Qed.

Lemma shown_threshold_monotone_witness :
  shown_threshold 10000 <= shown_threshold 30000
    <= shown_threshold 10000 + (30000 - 10000).
Proof.
  apply shown_threshold_monotone; [raw_range|raw_range|lia].
Defined.

(** Every value between what reading 0 shows and what reading [n] shows
    is shown by some reading up to [n]. *)
Lemma shown_threshold_onto (n : nat) :
  Z.of_nat n <= POT_MAX ->
  forall t, shown_threshold 0 <= t <= shown_threshold (Z.of_nat n) ->
  exists raw, 0 <= raw <= Z.of_nat n /\ shown_threshold raw = t.
Proof.
  induction n as [|n IH]; intros Hn t Ht.
  - exists 0. cbn in *. split; lia.
  - rewrite Nat2Z.inj_succ in *.
    pose proof (shown_threshold_step (Z.succ (Z.of_nat n)) ltac:(lia)) as Hstep.
    replace (Z.succ (Z.of_nat n) - 1) with (Z.of_nat n) in Hstep by lia.
    destruct (Z_le_dec t (shown_threshold (Z.of_nat n))) as [Hle|Hgt].
    + destruct (IH ltac:(lia) t ltac:(lia)) as (raw & Hr & Hs).
      exists raw. split; [lia|assumption].
    + exists (Z.succ (Z.of_nat n)). split; lia.
Qed.

(** X20. Every whole number of inches from 2 to 36 can be set: for each
    there is a 16-bit reading of the potentiometer whose threshold
    truncates to exactly that number. *)
Theorem every_inch_can_be_set (t : Z) :
  2 <= t <= 36 ->
  exists raw,
    raw_in_range raw /\
    py_int (PyFloat (snd (get_pot_value raw))) = Ok t /\
    shown_threshold raw = t.
Proof.
  intros Ht. destruct shown_threshold_ends as (E0 & Emax).
  destruct (shown_threshold_onto (Z.to_nat POT_MAX)) with (t := t)
    as (raw & Hr & Hs).
  - rewrite Z2Nat.id; unfold POT_MAX; lia.
  - rewrite Z2Nat.id by (unfold POT_MAX; lia). lia.
  - rewrite Z2Nat.id in Hr by (unfold POT_MAX; lia).
    exists raw. split; [exact Hr|]. split; [|exact Hs].
    destruct (threshold_int raw Hr) as (t' & Ht' & _).
    unfold shown_threshold in Hs. rewrite Ht' in Hs. subst t'. exact Ht'.
Qed.

Lemma every_inch_can_be_set_witness :
  exists raw, raw_in_range raw /\ shown_threshold raw = 20.
Proof.
  destruct (every_inch_can_be_set 20 ltac:(lia)) as (raw & Hr & _ & Hs).
  exists raw. split; [exact Hr|exact Hs].
Defined.

(** ** The counter over a run *)

(** X21. While the reset button is not pressed the counter never goes
    down and grows by at most one per iteration: over any run of iterations
    whose button samples all read not pressed, the counter at the end is
    between the counter at the start and that counter plus the number of
    iterations. *)
Theorem counter_grows_without_reset (rs : list readings) (st : state) :
  wf_state st -> Forall valid rs -> Forall released rs ->
  exists st',
    run rs st = Ok st' /\
    counter st <= counter st' <= counter st + Z.of_nat (length rs).
Proof.
  revert st. induction rs as [|r rest IH]; intros st Hwf Hv Hrel.
  - exists st. split; [reflexivity|]. cbn. lia.
  - inversion Hv as [|? ? Hvr Hvrest]; subst.
    inversion Hrel as [|? ? Hr Hrest]; subst.
    destruct (loop_iteration_ok r st Hwf Hvr) as (st1 & Hit & Hwf1 & _).
    destruct (loop_iteration_effects r st Hwf Hvr) as (st2 & H2 & Ec & _).
    rewrite Hit in H2. injection H2 as <-.
    assert (Hedge : press_edge r st = false)
      by (unfold press_edge; unfold released in Hr; rewrite Hr; reflexivity).
    rewrite Hedge in Ec.
    destruct (IH st1 Hwf1 Hvrest Hrest) as (st' & Hrun & Hc').
    exists st'. cbn [run length]. rewrite Hit. cbn [bind].
    split; [assumption|].
    rewrite Nat2Z.inj_succ. destruct (entry_tick r st); lia.
Qed.

Lemma counter_grows_without_reset_witness :
  exists st',
    run two_reps entry_state = Ok st' /\
    counter entry_state <= counter st' <= counter entry_state + 4.
Proof.
  assert (Hv : Forall valid two_reps) by (forall_each raw_range).
  assert (Hr : Forall released two_reps) by (forall_each ltac:(reflexivity)).
  destruct (counter_grows_without_reset two_reps entry_state
              wf_entry_state Hv Hr) as (st' & Hrun & Hc).
  exists st'. split; [exact Hrun|exact Hc].
Defined.

(** ** The two encoders side by side *)

(** X22. On a count from 0 to 99 the digit encoder and the counter field
    of the packer agree up to leading-zero blanking: the encoder blanks its
    first two entries, its ones entry is the packer's ones digit, and its
    tens entry is the packer's tens digit, or blank where the packer shows
    a 0 for a count below 10. *)
Theorem encoder_agrees_with_packer (t c : Z) :
  0 <= c <= 99 ->
  exists t_tens t_ones c_tens c_ones e_tens,
    pack_digits t c = [t_tens; t_ones; c_tens; c_ones] /\
    update_display_digits c = [BLANK; BLANK; e_tens; c_ones] /\
    digit_value e_tens = c_tens /\
    (e_tens = BLANK <-> c < 10) /\
    decode (update_display_digits c) = 10 * c_tens + c_ones.
Proof.
  intros Hc.
  destruct (pack_digits_spec t c) as (a & b & ct & co & Hp & Hd & _ & Hcc).
  assert (Hcl : clamp 0 99 c = c).
  { unfold clamp. destruct (Z.ltb_spec c 0); [lia|].
    destruct (Z.ltb_spec 99 c); lia. }
  rewrite Hcl in Hcc.
  pose proof (Forall_inv (Forall_inv_tail (Forall_inv_tail Hd))) as Dct.
  pose proof (Forall_inv (Forall_inv_tail (Forall_inv_tail
                (Forall_inv_tail Hd)))) as Dco.
  unfold is_digit in Dct, Dco.
  assert (Hco : co = c mod 10) by (Z.div_mod_to_equations; lia).
  assert (Hct : ct = c / 10) by (Z.div_mod_to_equations; lia).
  pose proof (update_display_digits_cases c) as He. cbv zeta in He.
  rewrite (Z.mod_small c 10000) in He by lia.
  unfold decimal_digit in He.
  change (10 ^ 1) with 10 in He. change (10 ^ 0) with 1 in He.
  rewrite Z.div_1_r in He.
  assert (H3 : (c <? 1000) = true) by (apply Z.ltb_lt; lia).
  assert (H2 : (c <? 100) = true) by (apply Z.ltb_lt; lia).
  rewrite H3, H2, <- Hco in He.
  exists a, b, ct, co, (if c <? 10 then BLANK else (c / 10) mod 10).
  split; [assumption|]. split; [assumption|].
  assert (Hmod : (c / 10) mod 10 = c / 10) by (apply Z.mod_small; lia).
  assert (Hval : digit_value (if c <? 10 then BLANK else (c / 10) mod 10) = ct).
  { destruct (Z.ltb_spec c 10).
    - change (digit_value BLANK) with 0. lia.
    - unfold digit_value, BLANK. rewrite Hmod.
      destruct (Z.eqb_spec (c / 10) (-1)); lia. }
  split; [exact Hval|]. split.
  - unfold BLANK. destruct (Z.ltb_spec c 10); split; intros;
      try lia; reflexivity.
  - rewrite He. unfold decode. cbn [fold_left]. rewrite Hval.
    change (digit_value BLANK) with 0.
    unfold digit_value, BLANK.
    destruct (Z.eqb_spec co (-1)); lia.
Qed.

Lemma encoder_agrees_with_packer_witness :
  exists e_tens,
    update_display_digits 7 = [BLANK; BLANK; e_tens; 7] /\ e_tens = BLANK.
Proof.
  destruct (encoder_agrees_with_packer 17 7 ltac:(lia))
    as (a & b & ct & co & et & Hp & He & _ & Hb & _).
  exists et. injection Hp as <- <- <- <-. split; [exact He|].
  apply Hb. lia.
Defined.
